(** * olap-learn: the census spreadsheet parser ([src/parser.py])

    A shallow embedding of the four functions of [src/parser.py]
    ([parse_age_group], [calculate_year_range], [read_nationality_data],
    [read_age_sex_data]) and the properties of them that the specification
    states, followed by further properties of the four functions and of the
    way [src/db.py] takes their region names.

    Modelling choices.

    - A Python [str] is a list of Unicode code points ([str := list N]).
      String literals of the source are written as UTF-8 Rocq strings and
      decoded by [py], so that [len], slicing and comparison count code
      points as Python does.
    - Character data of Python's Unicode database is concrete for the code
      points the program's own literals live in (ASCII and the Cyrillic
      block U+0400..U+045F) and a parameter [unicode_db] for every other code
      point; every theorem holds for all such databases.
    - Python integers are [Z]; [str(n)] and [int(s)] have no bound on the
      number of digits (the interpreter's limit on such conversions is a
      setting of the interpreter, not of the program).
    - Exceptions are explicit: a computation is a [result], either [Ok v] or
      [Raise e]; [try/except] is a case analysis on it.
    - A [dict] is a [gmap]: the claims compare dicts with [==], which ignores
      insertion order.
    - [pd.read_excel(..., header=None, dtype=str)] is the outcome of reading
      the file ([read_excel]): the file is missing, reading fails, or there
      is a table, a list of rows of optional cell texts ([None] is pandas'
      NaN of an empty cell).
    - The phrases the scanners look for are the Russian literals of the
      source; the specification gives them in English ("federal district" is
      "федеральный округ", "indicating nationality" is "указавшие
      национальную", "urban and rural" is "городское и сельское", "and more"
      and "and older" are "и более" and "и старше").
    - Logging is advisory and is left out. *)

From Stdlib Require Import ZArith NArith List String Ascii Lia Bool.
From stdpp Require Import base option list gmap fin_maps.

Open Scope Z_scope.

(** ** Python strings *)

Definition char := N.
Definition str := list char.

(** UTF-8 decoding of a source literal into code points. *)
Fixpoint utf8_decode (bs : list N) : str :=
  match bs with
  | [] => []
  | b0 :: r0 =>
      if (b0 <? 128)%N then b0 :: utf8_decode r0
      else match r0 with
           | [] => [b0]
           | b1 :: r1 =>
               if (b0 <? 224)%N
               then ((b0 - 192) * 64 + (b1 - 128))%N :: utf8_decode r1
               else match r1 with
                    | [] => [b0; b1]
                    | b2 :: r2 =>
                        if (b0 <? 240)%N
                        then ((b0 - 224) * 4096 + (b1 - 128) * 64
                              + (b2 - 128))%N :: utf8_decode r2
                        else match r2 with
                             | [] => [b0; b1; b2]
                             | b3 :: r3 =>
                                 ((b0 - 240) * 262144 + (b1 - 128) * 4096
                                  + (b2 - 128) * 64 + (b3 - 128))%N
                                 :: utf8_decode r3
                             end
                    end
           end
  end.

Definition py (s : string) : str :=
  utf8_decode (List.map N_of_ascii (list_ascii_of_string s)).

Definition ch_newline : char := 10%N.
Definition ch_space : char := 32%N.
Definition ch_plus : char := 43%N.
Definition ch_minus : char := 45%N.
Definition ch_dot : char := 46%N.
Definition ch_zero : char := 48%N.
Definition ch_en_dash : char := 8211%N.
Definition ch_em_dash : char := 8212%N.

(** ** Exceptions *)

Inductive exn := IndexError | ValueError | KeyError | TypeError.

Inductive result (A : Type) :=
| Ok (a : A)
| Raise (e : exn).
Arguments Ok {A} a.
Arguments Raise {A} e.

#[global] Instance result_ret : MRet result := fun A a => Ok a.
#[global] Instance result_bind : MBind result := fun A B f m =>
  match m with
  | Ok a => f a
  | Raise e => Raise e
  end.

(** [l[i]] on a Python list. *)
Definition index {A} (l : list A) (i : nat) : result A :=
  match l !! i with
  | Some a => Ok a
  | None => Raise IndexError
  end.

(** Truth value of an optional string: [None] and [''] are false. *)
Definition truthy (o : option str) : bool :=
  match o with
  | Some (_ :: _) => true
  | _ => false
  end.

(** ** The Unicode database *)

(** What Python knows about the code points outside ASCII and
    U+0400..U+045F. [ext_decimal] is the value of a decimal digit (category
    Nd: what [\d] matches and [int] reads), [ext_other_digit] the further
    characters [str.isdigit] accepts (superscripts and the like),
    [ext_lower] is [str.lower] on a string that has such a code point, and
    [ext_ieq p c] is whether [re.IGNORECASE] lets the pattern character [p]
    match [c]. *)
Record unicode_db := {
  ext_isspace : char -> bool;
  ext_decimal : char -> option N;
  ext_other_digit : char -> bool;
  ext_lower : str -> str;
  ext_ieq : char -> char -> bool
}.

(** A database in which no further code point is a blank, a digit or a
    cased letter; it serves to run the functions on texts of the fragment. *)
Definition plain_db : unicode_db :=
  {| ext_isspace := fun _ => false;
     ext_decimal := fun _ => None;
     ext_other_digit := fun _ => false;
     ext_lower := fun s => s;
     ext_ieq := fun p c => (p =? c)%N |}.

Definition in_fragment (c : char) : bool :=
  (c <? 128)%N || ((1024 <=? c)%N && (c <? 1120)%N).

(** [str.isspace] on ASCII: TAB, LF, VT, FF, CR, FS, GS, RS, US, space. *)
Definition frag_isspace (c : char) : bool :=
  ((9 <=? c)%N && (c <=? 13)%N) || ((28 <=? c)%N && (c <=? 32)%N).

Definition frag_decimal (c : char) : option N :=
  if ((48 <=? c)%N && (c <=? 57)%N) then Some (c - 48)%N else None.

(** A..Z, U+0410..U+042F (А..Я) and U+0400..U+040F (Ѐ..Џ). *)
Definition frag_lower (c : char) : char :=
  if ((65 <=? c)%N && (c <=? 90)%N) then (c + 32)%N
  else if ((1040 <=? c)%N && (c <=? 1071)%N) then (c + 32)%N
  else if ((1024 <=? c)%N && (c <=? 1039)%N) then (c + 80)%N
  else c.

Section Python.

Context (U : unicode_db).

Definition isspace (c : char) : bool :=
  if in_fragment c then frag_isspace c else ext_isspace U c.

Definition decimal (c : char) : option N :=
  if in_fragment c then frag_decimal c else ext_decimal U c.

(** [c.isdigit()] *)
Definition isdigit (c : char) : bool :=
  match decimal c with
  | Some _ => true
  | None => if in_fragment c then false else ext_other_digit U c
  end.

(** [s.isdigit()]: at least one character, all of them digits. *)
Definition str_isdigit (s : str) : bool :=
  match s with
  | [] => false
  | _ => forallb isdigit s
  end.

(** [s.lower()] *)
Definition lower (s : str) : str :=
  if forallb in_fragment s then List.map frag_lower s else ext_lower U s.

(** [s.replace(old, new)] for one-character [old] and [new]. *)
Definition replace (old new : char) (s : str) : str :=
  List.map (fun c => if (c =? old)%N then new else c) s.

Fixpoint lstrip (s : str) : str :=
  match s with
  | c :: s' => if isspace c then lstrip s' else s
  | [] => []
  end.

Definition rstrip (s : str) : str := rev (lstrip (rev s)).

(** [s.strip()] *)
Definition strip (s : str) : str := rstrip (lstrip s).

Fixpoint startswith (sub s : str) : bool :=
  match sub, s with
  | [], _ => true
  | a :: sub', b :: s' => (a =? b)%N && startswith sub' s'
  | _ :: _, [] => false
  end.

(** [sub in s] *)
Fixpoint contains (sub s : str) : bool :=
  startswith sub s ||
  match s with
  | [] => false
  | _ :: s' => contains sub s'
  end.

(** [s.split(sep)] for a one-character separator, as its first element and
    the others: the list is never empty. *)
Fixpoint split_on (sep : char) (s : str) : str * list str :=
  match s with
  | [] => ([], [])
  | c :: s' =>
      let '(h, t) := split_on sep s' in
      if (c =? sep)%N then ([], h :: t) else (c :: h, t)
  end.

(** [s.split()]: the maximal runs of non-blank characters. *)
Fixpoint split_ws_aux (s : str) (cur : str) : list str :=
  match s with
  | [] => match cur with [] => [] | _ => [rev cur] end
  | c :: s' =>
      if isspace c
      then match cur with
           | [] => split_ws_aux s' []
           | _ => rev cur :: split_ws_aux s' []
           end
      else split_ws_aux s' (c :: cur)
  end.

Definition split_ws (s : str) : list str := split_ws_aux s [].

(** ** Integers and text *)

(** [int(s)] for a text without sign, blank or underscore, which is what
    the program passes: a match of [\d+] or a string that passed
    [str.isdigit]. A digit that is not decimal is a [ValueError]. *)
Fixpoint int_digits (s : str) (acc : N) : result N :=
  match s with
  | [] => Ok acc
  | c :: s' =>
      match decimal c with
      | Some d => int_digits s' (10 * acc + d)%N
      | None => Raise ValueError
      end
  end.

Definition py_int (s : str) : result Z :=
  match s with
  | [] => Raise ValueError
  | _ => n ← int_digits s 0%N; Ok (Z.of_N n)
  end.

End Python.

(** [str(n)] for an integer: decimal digits, most significant first, and a
    minus sign for a negative number. *)
Fixpoint digits_fuel (fuel : nat) (n : N) : str :=
  match fuel with
  | O => []
  | S f =>
      if (n <? 10)%N then [(ch_zero + n)%N]
      else digits_fuel f (n / 10)%N ++ [(ch_zero + n mod 10)%N]
  end.

Definition str_of_N (n : N) : str := digits_fuel (S (N.to_nat (N.log2 n))) n.

Definition str_of_int (z : Z) : str :=
  if z <? 0 then ch_minus :: str_of_N (Z.to_N (- z)) else str_of_N (Z.to_N z).

(** ** Regular expressions

    The fragment of Python's [re] the three patterns of [parse_age_group]
    are written in, with [re]'s backtracking order: a greedy repetition first
    takes all it can and gives characters back one at a time, an alternation
    tries its branches from the left, an optional part is tried before it is
    skipped. A match is the text of its numbered groups. *)

Inductive cclass :=
| CDigit                 (* \d *)
| CSpace                 (* \s *)
| CSet (l : list char).  (* [...] *)

Inductive regex :=
| REmpty
| RLit (c : char)
| RCls (k : cclass)
| RStar (k : cclass)
| RPlus (k : cclass)
| RSeq (r1 r2 : regex)
| RAlt (r1 r2 : regex)
| ROpt (r : regex)
| RGroup (i : nat) (r : regex)
| REnd.                  (* $ *)

(** A run of literal characters. *)
Fixpoint RText (s : str) : regex :=
  match s with
  | [] => REmpty
  | c :: s' => RSeq (RLit c) (RText s')
  end.

(** The groups of a match: [m.group(i)] is the text group [i] matched, or
    [None] when the group took no part in the match. *)
Definition groups := nat -> option str.

Definition no_groups : groups := fun _ => None.

Definition set_group (i : nat) (x : str) (g : groups) : groups :=
  fun j => if decide (j = i) then Some x else g j.

Section Regex.

Context (U : unicode_db).

Definition in_class (k : cclass) (c : char) : bool :=
  match k with
  | CDigit => bool_decide (is_Some (decimal U c))
  | CSpace => isspace U c
  | CSet l => existsb (N.eqb c) l
  end.

(** A literal of the pattern against a character of the text; under
    [re.IGNORECASE] both are compared in lower case. *)
Definition lit_match (ignorecase : bool) (p c : char) : bool :=
  if ignorecase
  then if in_fragment c then (frag_lower c =? frag_lower p)%N else ext_ieq U p c
  else (c =? p)%N.

Section Exec.

Context (ignorecase : bool).

Fixpoint star_exec (p : char -> bool) (s : str)
    (k : str -> option groups) : option groups :=
  match s with
  | c :: s' =>
      if p c
      then match star_exec p s' k with
           | Some g => Some g
           | None => k s
           end
      else k s
  | [] => k []
  end.

Fixpoint exec (r : regex) (s : str) (g : groups)
    (k : str -> groups -> option groups) : option groups :=
  match r with
  | REmpty => k s g
  | RLit p =>
      match s with
      | c :: s' => if lit_match ignorecase p c then k s' g else None
      | [] => None
      end
  | RCls cl =>
      match s with
      | c :: s' => if in_class cl c then k s' g else None
      | [] => None
      end
  | RStar cl => star_exec (in_class cl) s (fun s' => k s' g)
  | RPlus cl =>
      match s with
      | c :: s' =>
          if in_class cl c
          then star_exec (in_class cl) s' (fun s'' => k s'' g)
          else None
      | [] => None
      end
  | RSeq r1 r2 => exec r1 s g (fun s' g' => exec r2 s' g' k)
  | RAlt r1 r2 =>
      match exec r1 s g k with
      | Some g' => Some g'
      | None => exec r2 s g k
      end
  | ROpt r1 =>
      match exec r1 s g k with
      | Some g' => Some g'
      | None => k s g
      end
  | RGroup i r1 =>
      exec r1 s g
        (fun s' g' => k s' (set_group i (take (length s - length s') s) g'))
  | REnd =>
      match s with
      | [] => k s g
      | [c] => if (c =? ch_newline)%N then k s g else None
      | _ => None
      end
  end.

End Exec.

(** [re.match(r, s)] and [re.match(r, s, re.IGNORECASE)] *)
Definition re_match (ignorecase : bool) (r : regex) (s : str) : option groups :=
  exec ignorecase r s no_groups (fun _ g => Some g).

(** [int(m.group(i))] *)
Definition int_group (m : groups) (i : nat) : result Z :=
  match m i with
  | Some s => py_int U s
  | None => Raise TypeError
  end.

(** ** [parse_age_group] *)

(** [(\d+)\s*(и более|и старше|\+)] *)
Definition re_older : regex :=
  RSeq (RGroup 1 (RPlus CDigit))
    (RSeq (RStar CSpace)
       (RGroup 2
          (RAlt (RText (py "и более"))
             (RAlt (RText (py "и старше")) (RLit ch_plus))))).

(** [(\d+)\s*[-–—]\s*(\d+)] *)
Definition re_range : regex :=
  RSeq (RGroup 1 (RPlus CDigit))
    (RSeq (RStar CSpace)
       (RSeq (RCls (CSet [ch_minus; ch_en_dash; ch_em_dash]))
          (RSeq (RStar CSpace) (RGroup 2 (RPlus CDigit))))).

(** [(\d+)\s*(лет?)?$] *)
Definition re_single : regex :=
  RSeq (RGroup 1 (RPlus CDigit))
    (RSeq (RStar CSpace)
       (RSeq (ROpt (RGroup 2 (RSeq (RText (py "ле")) (ROpt (RText (py "т"))))))
          REnd)).

(** The three patterns are tried in this order and the first that matches
    decides. The argument is a [str]: the guard on its type is the type of
    the function. *)
Definition parse_age_group (age_str : str) : result (option (Z * Z)) :=
  let age_str := strip U age_str in
  match re_match true re_older age_str with
  | Some match_older =>
      lower ← int_group match_older 1;
      let upper := 120 in
      Ok (Some (lower, upper))
  | None =>
      match re_match false re_range age_str with
      | Some match_range =>
          lower ← int_group match_range 1;
          upper ← int_group match_range 2;
          Ok (Some (lower, upper))
      | None =>
          match re_match false re_single age_str with
          | Some match_single =>
              age ← int_group match_single 1;
              Ok (Some (age, age))
          | None => Ok None
          end
      end
  end.

End Regex.

(** ** [calculate_year_range] *)

Definition calculate_year_range (lower_age upper_age base_year : Z) : str :=
  let upper_year := base_year - lower_age in
  let lower_year := base_year - upper_age in
  py "(" ++ str_of_int lower_year ++ py ", " ++ str_of_int upper_year ++ py ")".

(** ** Spreadsheets *)

(** A row of the sheet: one optional text per column. *)
Abbreviation row := (list (option str)).

(** What [pd.read_excel(filepath, header=None, sheet_name=0, dtype=str)]
    does: it raises [FileNotFoundError], raises something else, or returns
    the table. *)
Inductive excel :=
| FileNotFoundError
| ReadError
| DataFrame (df : list row).

(** [o or ''] for an optional text, and the text of a cell known to hold
    one. *)
Definition text (o : option str) : str := default [] o.

Definition is_None (o : option str) : bool :=
  match o with
  | None => true
  | Some _ => false
  end.

(** ** [read_nationality_data] *)

Module Nationality.

Inductive parser_state :=
| STATE_SEARCHING_FO
| STATE_SEARCHING_REGION
| STATE_SEARCHING_NATION_MARKER
| STATE_READING_NATIONS.

Abbreviation nations := (gmap str Z).
Abbreviation regions := (gmap str (Z * gmap str Z)).

(** The local variables of the function that live across rows. *)
Record vars := {
  data : regions;
  current_region : option str;
  total_population : option Z;
  last_federal_district : option str;
  state : parser_state
}.

Definition initial : vars :=
  {| data := ∅; current_region := None; total_population := None;
     last_federal_district := None; state := STATE_SEARCHING_FO |}.

Definition federal_district_phrase : str := py "федеральный округ".
Definition nation_marker_phrase : str := py "указавшие национальную".

Definition stoplist : list str :=
  [py "указавшие национальную принадлежность"; py "национальность не указана";
   py "итого"; py "лица,"; py "не указавшие национальную"; py "принадлежность";
   py "(не перечисленные выше)"].

Section Scanner.

Context (U : unicode_db).

(** [str(v).replace('\n', ' ').strip() if pd.notna(v) else None] *)
Definition clean (v : option str) : option str :=
  (fun s => strip U (replace ch_newline ch_space s)) <$> v.

Definition is_federal_district_row (col_b col_c : option str) : bool :=
  (truthy col_b && contains federal_district_phrase (lower U (text col_b)))
  || (truthy col_c && contains federal_district_phrase (lower U (text col_c))).

Definition is_potential_region (col_a col_b col_c col_d : option str) : bool :=
  truthy col_a && str_isdigit U (split_on ch_dot (text col_a)).1
  && is_None col_b
  && truthy col_c
  && truthy col_d && str_isdigit U (text col_d)
  && negb (contains federal_district_phrase (lower U (text col_c)))
  && negb (contains nation_marker_phrase (lower U (text col_c)))
  && bool_decide (3 < length (text col_c))%nat.

Definition is_like_nation (col_a col_c col_d : option str) : bool :=
  truthy col_a && str_isdigit U (split_on ch_dot (text col_a)).1
  && truthy col_c && truthy col_d && str_isdigit U (text col_d).

Definition is_potential_nationality (current_region : option str)
    (col_a col_c col_d : option str) : bool :=
  truthy current_region
  && truthy col_a && str_isdigit U (split_on ch_dot (text col_a)).1
  && truthy col_c
  && truthy col_d && str_isdigit U (text col_d)
  && bool_decide (lower U (text col_c) ∉ stoplist).

(** The body of [if is_potential_region:]. *)
Definition region_found (v : vars) (col_c col_d : option str) : result vars :=
  let region_name_cleaned := strip U (replace ch_newline ch_space (text col_c)) in
  match data v !! region_name_cleaned with
  | None =>
      total ← py_int U (text col_d);
      Ok {| data := <[region_name_cleaned := (total, ∅)]> (data v);
            current_region := Some region_name_cleaned;
            total_population := Some total;
            last_federal_district := last_federal_district v;
            state := STATE_SEARCHING_NATION_MARKER |}
  | Some _ => Ok v
  end.

(** The body of [if is_potential_nationality:]. *)
Definition nation_found (v : vars) (col_c col_d : option str) : result vars :=
  let nation_name := strip U (replace ch_newline ch_space (text col_c)) in
  nation_pop ← py_int U (text col_d);
  if bool_decide (nation_pop > 0)
  then match current_region v with
       | Some region =>
           match data v !! region with
           | Some (total, nations) =>
               (* data[current_region][1][nation_name] = nation_pop *)
               Ok {| data := <[region :=
                                 (total, <[nation_name := nation_pop]> nations)]>
                               (data v);
                     current_region := current_region v;
                     total_population := total_population v;
                     last_federal_district := last_federal_district v;
                     state := state v |}
           | None => Ok v
           end
       | None => Ok v
       end
  else Ok v.

(** One turn of [for index, row in df.iterrows():]. *)
Definition process_row (v : vars) (r : row) : result vars :=
  let row_values := clean <$> r in
  col_a ← index row_values 0;
  col_b ← index row_values 1;
  col_c ← index row_values 2;
  col_d ← index row_values 3;
  if is_federal_district_row col_b col_c
  then
    let fo_name := strip U (text col_b ++ [ch_space] ++ text col_c) in
    Ok {| data := data v;
          current_region := None;
          total_population := total_population v;
          last_federal_district := Some fo_name;
          state := STATE_SEARCHING_REGION |}
  else
    match state v with
    | STATE_SEARCHING_FO => Ok v
    | STATE_SEARCHING_REGION =>
        if is_potential_region col_a col_b col_c col_d
        then region_found v col_c col_d
        else Ok v
    | STATE_SEARCHING_NATION_MARKER =>
        if truthy (current_region v) && truthy col_c
           && contains nation_marker_phrase (lower U (text col_c))
        then Ok {| data := data v;
                   current_region := current_region v;
                   total_population := total_population v;
                   last_federal_district := last_federal_district v;
                   state := STATE_READING_NATIONS |}
        else (* [is_like_nation] only logs a warning *) Ok v
    | STATE_READING_NATIONS =>
        if is_potential_nationality (current_region v) col_a col_c col_d
        then nation_found v col_c col_d
        else if is_None col_a && is_None col_c && is_None col_d
        then Ok {| data := data v;
                   current_region := None;
                   total_population := total_population v;
                   last_federal_district := last_federal_district v;
                   state := STATE_SEARCHING_REGION |}
        else Ok v
    end.

Fixpoint iterrows (v : vars) (df : list row) : result vars :=
  match df with
  | [] => Ok v
  | r :: rest => v' ← process_row v r; iterrows v' rest
  end.

(** The whole function: the [try] block and its two handlers. *)
Definition read_nationality_data (file : excel) : regions :=
  match file with
  | FileNotFoundError => ∅
  | ReadError => ∅
  | DataFrame df =>
      match iterrows initial df with
      | Ok v => data v
      | Raise _ => ∅
      end
  end.

End Scanner.

End Nationality.

(** ** [read_age_sex_data] *)

Module AgeSex.

Abbreviation ages := (gmap str (Z * Z)).
Abbreviation regions := (gmap str (gmap str (Z * Z))).

Record vars := {
  data : regions;
  current_region : option str;
  reading_ages : bool
}.

Definition initial : vars :=
  {| data := ∅; current_region := None; reading_ages := false |}.

Definition including_phrase : str := py "в том числе".
Definition age_phrase : str := py "возрасте".
Definition urban_and_rural_phrase : str := py "городское и сельское".

Section Scanner.

Context (U : unicode_db).

Definition clean (v : option str) : option str :=
  (fun s => strip U (replace ch_newline ch_space s)) <$> v.

(** The condition of the first [if] of the loop, evaluated from the left as
    [and] does. *)
Definition is_region_candidate (region_candidate : option str) : result bool :=
  if truthy region_candidate
  then
    first ← index (split_ws U (text region_candidate)) 0;
    if negb (existsb (isdigit U) first)
       && negb (contains including_phrase (lower U (text region_candidate)))
       && negb (contains age_phrase (lower U (text region_candidate)))
    then
      bounds ← parse_age_group U (text region_candidate);
      Ok (negb (bool_decide (is_Some bounds))
          && bool_decide (5 < length (text region_candidate))%nat)
    else Ok false
  else Ok false.

(** [str(v).strip() if pd.notna(v) else None] *)
Definition clean_next (v : option str) : option str := strip U <$> v.

(** The two inner [if]s: there is a next row and its column D has the
    phrase. [next] is [df.iloc[index + 1]] when [index + 1 < len(df)]. *)
Definition next_row_confirms (next : option row) : result bool :=
  match next with
  | None => Ok false
  | Some r =>
      let next_row_values := clean_next <$> r in
      cell ← index next_row_values 3;
      Ok (truthy cell && contains urban_and_rural_phrase (lower U (text cell)))
  end.

(** The body of [if reading_ages and current_region:]. *)
Definition read_ages (v : vars) (region : str) (row_values : row) : result vars :=
  age_group_str ← index row_values 3;
  male_str ← index row_values 8;
  female_str ← index row_values 9;
  if truthy age_group_str && truthy male_str && truthy female_str
     && str_isdigit U (text male_str) && str_isdigit U (text female_str)
  then
    age_bounds ← parse_age_group U (text age_group_str);
    if bool_decide (is_Some age_bounds)
    then
      males ← py_int U (text male_str);
      females ← py_int U (text female_str);
      match data v !! region with
      | Some ages =>
          (* data[current_region][age_group_str] = (males, females) *)
          Ok {| data := <[region := <[text age_group_str := (males, females)]> ages]>
                          (data v);
                current_region := current_region v;
                reading_ages := reading_ages v |}
      | None => Raise KeyError
      end
    else Ok v
  else if is_None age_group_str && is_None male_str && is_None female_str
  then
    match data v !! region with
    | Some ages =>
        if bool_decide (ages ≠ ∅)
        then Ok {| data := data v; current_region := None; reading_ages := false |}
        else Ok v
    | None => Raise KeyError
    end
  else Ok v.

(** One turn of the loop on the row at [index], with the row after it. *)
Definition process_row (v : vars) (r : row) (next : option row) : result vars :=
  let row_values := clean <$> r in
  region_candidate ← index row_values 3;
  candidate ← is_region_candidate region_candidate;
  confirmed ← (if (candidate : bool) then next_row_confirms next else Ok false);
  if (confirmed : bool)
  then
    let region := strip U (replace ch_newline ch_space (text region_candidate)) in
    Ok {| data := <[region := ∅]> (data v);
          current_region := Some region;
          reading_ages := true |}
  else
    if reading_ages v && truthy (current_region v)
    then read_ages v (text (current_region v)) row_values
    else Ok v.

Fixpoint iterrows (v : vars) (df : list row) : result vars :=
  match df with
  | [] => Ok v
  | r :: rest => v' ← process_row v r (head rest); iterrows v' rest
  end.

Definition read_age_sex_data (file : excel) : regions :=
  match file with
  | FileNotFoundError => ∅
  | ReadError => ∅
  | DataFrame df =>
      match iterrows initial df with
      | Ok v => data v
      | Raise _ => ∅
      end
  end.

End Scanner.

End AgeSex.

(** * Vocabulary of the properties *)

(** One of the characters 0 .. 9. *)
Definition ascii_digit (c : char) : Prop := (48 <= c <= 57)%N.

(** A repetition of the characters [p] accepts cannot go on into [rest]. *)
Definition stops (p : char -> bool) (rest : str) : Prop :=
  match rest with
  | [] => True
  | c :: _ => p c = false
  end.

(** What follows the first group in each pattern of [parse_age_group]. *)
Definition older_tail : regex :=
  RSeq (RStar CSpace)
    (RGroup 2
       (RAlt (RText (py "и более"))
          (RAlt (RText (py "и старше")) (RLit ch_plus)))).

Definition range_tail : regex :=
  RSeq (RStar CSpace)
    (RSeq (RCls (CSet [ch_minus; ch_en_dash; ch_em_dash]))
       (RSeq (RStar CSpace) (RGroup 2 (RPlus CDigit)))).

Definition single_tail : regex :=
  RSeq (RStar CSpace)
    (RSeq (ROpt (RGroup 2 (RSeq (RText (py "ле")) (ROpt (RText (py "т"))))))
       REnd).

(** The continuation of [re_match]: the match is complete. *)
Definition accept : str -> groups -> option groups := fun _ g => Some g.


(** The four cells [col_a] .. [col_d] of a row of the nationality sheet,
    cleaned. *)
Definition columns (U : unicode_db) (r : row)
    (col_a col_b col_c col_d : option str) : Prop :=
  exists more, Nationality.clean U <$> r = col_a :: col_b :: col_c :: col_d :: more.

(** A row the nationality scanner takes for a federal-district marker. *)
Definition federal_district_row (U : unicode_db) (r : row) : Prop :=
  exists col_a col_b col_c col_d,
    columns U r col_a col_b col_c col_d
    /\ Nationality.is_federal_district_row U col_b col_c = true.

(** Every population stored under a region is positive. *)
Definition positive_nations (d : Nationality.regions) : Prop :=
  forall region total nations nation pop,
    d !! region = Some (total, nations) -> nations !! nation = Some pop -> 0 < pop.

(** [idx] is the text of [s] before its first [sep], or all of [s] when it
    has none: [s.split(sep)[0]]. *)
Definition before_first (sep : char) (s idx : str) : Prop :=
(sep ∉ idx) /\ exists rest, s = idx ++ rest /\ (rest = [] \/ exists r, rest = sep :: r).

(** A text [str.isdigit] accepts: not empty, digits only. *)
Definition digits (U : unicode_db) (s : str) : Prop :=
  s ≠ [] /\ Forall (fun c => isdigit U c = true) s.

(** [phrase] occurs in [s]. *)
Definition has_phrase (phrase s : str) : Prop :=
  exists pre post, s = pre ++ phrase ++ post.

(** The conditions under which the nationality scanner takes a row for a
    region header. *)
Definition region_header (U : unicode_db)
    (col_a col_b col_c col_d : option str) : Prop :=
  (exists a idx, col_a = Some a /\ before_first ch_dot a idx /\ digits U idx)
  /\ col_b = None
  /\ (exists c, col_c = Some c /\ (3 < length c)%nat
        /\ ¬ has_phrase Nationality.federal_district_phrase (lower U c)
        /\ ¬ has_phrase Nationality.nation_marker_phrase (lower U c))
  /\ (exists d, col_d = Some d /\ digits U d).

(** The sheet of the end-to-end scenario of the specification, after a first
    row [fo_row], with [marker] in column C of the marker row. *)
Definition sample_sheet (fo_row : row) (marker : str) : list row :=
  [ fo_row;
    [Some (py "1."); None; Some (py "Sample Region"); Some (py "1000")];
    [None; None; Some marker; None];
    [Some (py "1."); None; Some (py "Russians"); Some (py "800")];
    [Some (py "2."); None; Some (py "Tatars"); Some (py "0")];
    [None; None; None; None] ].

Definition sample_result : Nationality.regions :=
  {[ py "Sample Region" := (1000, {[ py "Russians" := 800 ]}) ]}.

(** Column A begins with a digit: the words of the specification for the
    first condition of a region header. *)
Definition starts_with_digit (U : unicode_db) (s : str) : Prop :=
  exists c rest, s = c :: rest /\ isdigit U c = true.

(** The conditions of a region header as the specification words them. *)
Definition region_header_as_stated (U : unicode_db)
    (col_a col_b col_c col_d : option str) : Prop :=
  (exists a, col_a = Some a /\ starts_with_digit U a)
  /\ col_b = None
  /\ (exists c, col_c = Some c /\ (3 < length c)%nat
        /\ ¬ has_phrase Nationality.federal_district_phrase (lower U c)
        /\ ¬ has_phrase Nationality.nation_marker_phrase (lower U c))
  /\ (exists d, col_d = Some d /\ digits U d).

(** In the age/sex sheet, row [r] passes the region-header heuristics and
    the row [next] after it has the "urban and rural" phrase in column D;
    [region] is the name the scanner then registers. *)
Definition confirmed_header (U : unicode_db) (r : row) (next : option row)
    (region : str) : Prop :=
  exists next_row candidate cell,
    next = Some next_row
    /\ (AgeSex.clean U <$> r) !! 3%nat = Some candidate
    /\ AgeSex.is_region_candidate U candidate = Ok true
    /\ (AgeSex.clean_next U <$> next_row) !! 3%nat = Some cell
    /\ truthy cell = true
    /\ has_phrase AgeSex.urban_and_rural_phrase (lower U (text cell))
    /\ region = strip U (replace ch_newline ch_space (text candidate)).

(** The same, for the row at position [i] of the sheet [df]. *)
Definition region_header_at (U : unicode_db) (df : list row) (i : nat)
    (region : str) : Prop :=
  exists r, df !! i = Some r /\ confirmed_header U r (df !! S i) region.

(** The variables of the age/sex scanner when its loop reaches row [i] of
    the sheet [df] (all rows done when [i] is the length of [df]). *)
Fixpoint age_sex_state_before (U : unicode_db) (df : list row) (i : nat)
    : result AgeSex.vars :=
  match i with
  | O => Ok AgeSex.initial
  | S j =>
      v ← age_sex_state_before U df j;
      match df !! j with
      | Some r => AgeSex.process_row U v r (df !! S j)
      | None => Ok v
      end
  end.

(** Rows for the scenarios: a federal-district row in the source's language
    and in that of the specification, a row that is too short, and rows of an
    age/sex sheet, which has its texts in columns D, I and J. *)
Definition fo_row_ru : row :=
  [None; None; Some (py "Центральный федеральный округ"); None].

Definition fo_row_en : row :=
  [None; None; Some (py "Central federal district"); None].

Definition short_row : row := [Some (py "1.")].

Definition marker_ru : str := py "Указавшие национальную принадлежность".

Definition marker_en : str := py "indicating nationality affiliation".

Definition age_row (d i j : option str) : row :=
  [None; None; None; d; None; None; None; None; i; j].

Definition age_sheet : list row :=
  [ age_row (Some (py "Белгородская область")) None None;
    age_row (Some (py "Городское и сельское население")) None None;
    age_row (Some (py "0 - 4")) (Some (py "120")) (Some (py "130"));
    age_row None None None ].

(** The scanner's variables after a first block of the nationality sheet. *)
Definition after_sample_region : Nationality.vars :=
  {| Nationality.data := sample_result;
     Nationality.current_region := None;
     Nationality.total_population := Some 1000;
     Nationality.last_federal_district := Some (py "Центральный федеральный округ");
     Nationality.state := Nationality.STATE_SEARCHING_REGION |}.

(** Group [i] is one of the groups of [r]. *)
Fixpoint has_group (i : nat) (r : regex) : bool :=
  match r with
  | RGroup j r1 => bool_decide (j = i) || has_group i r1
  | RSeq r1 r2 | RAlt r1 r2 => has_group i r1 || has_group i r2
  | ROpt r1 => has_group i r1
  | _ => false
  end.

(** A non-empty run of decimal digits: what [(\d+)] can capture. *)
Definition decimal_run (U : unicode_db) (s : str) : Prop :=
  s ≠ [] /\ Forall (fun c => is_Some (decimal U c)) s.


(** Blanks, of any script. *)
Definition blanks (U : unicode_db) (ws : str) : Prop :=
  Forall (fun c => isspace U c = true) ws.






(** A text as cleaning leaves it: no newline, no blank at either end. *)
Definition cleaned (U : unicode_db) (s : str) : Prop :=
  (ch_newline ∉ s) /\ strip U s = s.

(** What holds of the variables of the nationality scanner between two
    rows. Before the first federal district nothing is stored; while a region
    is searched there is no current region; while the marker is searched the
    current region is a key of the map, with its total and no nation yet;
    while nations are read it is a key of the map with its total. *)
Definition nationality_invariant (v : Nationality.vars) : Prop :=
  match Nationality.state v with
  | Nationality.STATE_SEARCHING_FO =>
      Nationality.data v = ∅ /\ Nationality.current_region v = None
  | Nationality.STATE_SEARCHING_REGION =>
      Nationality.current_region v = None
  | Nationality.STATE_SEARCHING_NATION_MARKER =>
      exists region total,
        Nationality.current_region v = Some region /\ region ≠ []
        /\ Nationality.total_population v = Some total
        /\ Nationality.data v !! region = Some (total, ∅)
  | Nationality.STATE_READING_NATIONS =>
      exists region total nations,
        Nationality.current_region v = Some region /\ region ≠ []
        /\ Nationality.total_population v = Some total
        /\ Nationality.data v !! region = Some (total, nations)
  end.

(** The entries of the map of the nationality scanner: a region name is a
    cleaned text of more than 3 characters without the two phrases, its
    total is not negative, and a nation name is a cleaned text that is not
    empty and, in lower case, not one of the stoplist. *)
Definition well_formed_regions (U : unicode_db) (d : Nationality.regions) : Prop :=
  forall region total nations,
    d !! region = Some (total, nations) ->
    (cleaned U region /\ (3 < length region)%nat /\ 0 <= total
     /\ ¬ has_phrase Nationality.federal_district_phrase (lower U region)
     /\ ¬ has_phrase Nationality.nation_marker_phrase (lower U region))
    /\ (forall nation pop,
          nations !! nation = Some pop ->
          cleaned U nation /\ nation ≠ []
          /\ lower U nation ∉ Nationality.stoplist).

(** The map [d'] keeps every region of [d] with its total and every nation
    it had. *)
Definition regions_kept (d d' : Nationality.regions) : Prop :=
  forall region total nations,
    d !! region = Some (total, nations) ->
    exists nations',
      d' !! region = Some (total, nations')
      /\ forall nation, is_Some (nations !! nation) -> is_Some (nations' !! nation).

(** The two ways the loop of the nationality scanner can raise at row [r]. *)
Definition nationality_failure (U : unicode_db) (r : row) (e : exn) : Prop :=
  (e = IndexError /\ (length r < 4)%nat)
  \/ (e = ValueError
      /\ exists col_a col_b col_c col_d,
           columns U r col_a col_b col_c col_d
           /\ str_isdigit U (text col_d) = true
           /\ py_int U (text col_d) = Raise ValueError).

(** A row of the nationality sheet with the nation-marker phrase in
    column C. *)
Definition nation_marker_row (U : unicode_db) (r : row) : Prop :=
  exists col_a col_b col_c col_d,
    columns U r col_a col_b col_c col_d
    /\ has_phrase Nationality.nation_marker_phrase (lower U (text col_c)).



(** The entries of the map of the age/sex scanner: a region name is a
    cleaned text of more than 5 characters that is no age group and has
    neither of the two sub-header phrases; an age label is a cleaned text
    that [parse_age_group] reads as an interval, and the two counts are not
    negative. *)
Definition well_formed_ages (U : unicode_db) (d : AgeSex.regions) : Prop :=
  forall region ages,
    d !! region = Some ages ->
    (cleaned U region /\ (5 < length region)%nat
     /\ parse_age_group U region = Ok None
     /\ ¬ has_phrase AgeSex.including_phrase (lower U region)
     /\ ¬ has_phrase AgeSex.age_phrase (lower U region))
    /\ (forall label males females,
          ages !! label = Some (males, females) ->
          cleaned U label
          /\ (exists lower upper, parse_age_group U label = Ok (Some (lower, upper)))
          /\ 0 <= males /\ 0 <= females).



(** A federal district, a region row and a nation row with no marker row
    between them. *)
Definition unmarked_sheet : list row :=
  [ fo_row_ru;
    [Some (py "1."); None; Some (py "Sample Region"); Some (py "1000")];
    [Some (py "1."); None; Some (py "Russians"); Some (py "800")] ].

(** The variables of the age/sex scanner after the sheet [age_sheet]. *)
Definition after_age_sheet : AgeSex.vars :=
  {| AgeSex.data := {[ py "Белгородская область" := {[ py "0 - 4" := (120, 130) ]} ]};
     AgeSex.current_region := None;
     AgeSex.reading_ages := false |}.

(** [get_or_insert_territory] of [src/db.py] cleans the name it is given
    before it looks it up:
    [territory_name.strip() if territory_name else None]. *)
Definition territory_name_cleaned (U : unicode_db) (territory_name : option str)
    : option str :=
  if truthy territory_name then Some (strip U (text territory_name)) else None.

(** * Properties *)

(** ** Decimal text *)

Lemma digits_fuel_ascii fuel n : Forall ascii_digit (digits_fuel fuel n).
Proof.
  revert n. induction fuel as [|f IH]; intros n; simpl; [constructor|].
  destruct (N.ltb_spec n 10).
  - constructor; [unfold ascii_digit, ch_zero; lia | constructor].
  - apply Forall_app. split; [apply IH|].
    constructor; [|constructor].
    pose proof (N.mod_lt n 10 ltac:(lia)) as Hm.
    unfold ascii_digit, ch_zero. revert Hm. generalize (n mod 10)%N. lia.
Qed.

Lemma str_of_N_ascii n : Forall ascii_digit (str_of_N n).
Proof. apply digits_fuel_ascii. Qed.

Lemma str_of_N_nonempty n : str_of_N n ≠ [].
Proof.
  unfold str_of_N. simpl. destruct (n <? 10)%N; [discriminate|].
  intros H. apply app_eq_nil in H as [_ H]. discriminate.
Qed.

Lemma decimal_ascii U c : ascii_digit c -> decimal U c = Some (c - 48)%N.
Proof.
  unfold ascii_digit, decimal, in_fragment, frag_decimal. intros [H1 H2].
  replace (c <? 128)%N with true by (symmetry; apply N.ltb_lt; lia).
  simpl.
  replace (48 <=? c)%N with true by (symmetry; apply N.leb_le; lia).
  replace (c <=? 57)%N with true by (symmetry; apply N.leb_le; lia).
  reflexivity.
Qed.


Lemma int_digits_app U s1 s2 acc :
  int_digits U (s1 ++ s2) acc = int_digits U s1 acc ≫= int_digits U s2.
Proof.
  revert acc. induction s1 as [|c s1 IH]; intros acc; simpl; [reflexivity|].
  destruct (decimal U c); [apply IH | reflexivity].
Qed.

Lemma int_digits_fuel U fuel n :
  (n < 2 ^ N.of_nat fuel)%N ->
  int_digits U (digits_fuel fuel n) 0 = Ok n.
Proof.
  revert n. induction fuel as [|f IH]; intros n Hn.
  - simpl in *. f_equal. lia.
  - simpl digits_fuel. destruct (N.ltb_spec n 10) as [Hlt|Hge].
    + simpl. rewrite decimal_ascii by (unfold ascii_digit, ch_zero; lia).
      simpl. f_equal. unfold ch_zero. lia.
    + rewrite int_digits_app, IH.
      * simpl. pose proof (N.mod_lt n 10 ltac:(lia)) as Hm.
        pose proof (N.div_mod n 10 ltac:(lia)) as Hd.
        revert Hm Hd. generalize (n mod 10)%N (n / 10)%N. intros m q Hm Hd.
        rewrite decimal_ascii by (unfold ascii_digit, ch_zero; lia).
        simpl. f_equal. unfold ch_zero. lia.
      * rewrite Nat2N.inj_succ, N.pow_succ_r' in Hn.
        apply N.Div0.div_lt_upper_bound. lia.
Qed.

Lemma int_digits_str_of_N U n : int_digits U (str_of_N n) 0 = Ok n.
Proof.
  apply int_digits_fuel. rewrite Nat2N.inj_succ, N2Nat.id.
  destruct (N.eq_dec n 0%N) as [->|Hn]; [reflexivity|].
  apply N.log2_spec. lia.
Qed.



(** ** How the matcher runs *)

Section RegexFacts.

Context (U : unicode_db) (ic : bool).

Lemma exec_seq r1 r2 s g k :
  exec U ic (RSeq r1 r2) s g k = exec U ic r1 s g (fun s' g' => exec U ic r2 s' g' k).
Proof. reflexivity. Qed.






Lemma take_run (run1 run2 rest : str) :
  take (length (run1 ++ run2 ++ rest) - length (run2 ++ rest))
    (run1 ++ run2 ++ rest) = run1.
Proof.
  rewrite (length_app run1), Nat.add_sub. apply take_app_length.
Qed.









End RegexFacts.

(** ** [parse_age_group] on the three shapes of text *)

Section AgeGroupFacts.

Context (U : unicode_db).


Lemma rstrip_last s c : isspace U c = false -> rstrip U (s ++ [c]) = s ++ [c].
Proof.
  intros H. unfold rstrip. rewrite rev_app_distr. simpl. rewrite H.
  simpl. by rewrite rev_involutive.
Qed.


















End AgeGroupFacts.

(** ** The age-group parser and the year-range calculator *)

Lemma py_int_nonneg U s z : py_int U s = Ok z -> 0 <= z.
Proof.
  unfold py_int. destruct s; [discriminate|].
  destruct (int_digits U _ _); simpl; [|discriminate]. intros [= <-]. lia.
Qed.










(** ** The nationality scanner *)

Section NationalityFacts.

Import Nationality.

Context (U : unicode_db).

(** A row with fewer than four cells raises [IndexError]. *)
Lemma process_row_short v r :
  (forall a b c d, ¬ columns U r a b c d) ->
  process_row U v r = Raise IndexError.
Proof.
  intros H. unfold process_row, index.
  destruct (clean U <$> r) as [|a [|b [|c [|d more]]]] eqn:E; try reflexivity.
  destruct (H a b c d). by exists more.
Qed.

Lemma process_row_columns v r col_a col_b col_c col_d :
  columns U r col_a col_b col_c col_d ->
  process_row U v r =
    if is_federal_district_row U col_b col_c
    then Ok {| data := data v;
               current_region := None;
               total_population := total_population v;
               last_federal_district :=
                 Some (strip U (text col_b ++ [ch_space] ++ text col_c));
               state := STATE_SEARCHING_REGION |}
    else
      match state v with
      | STATE_SEARCHING_FO => Ok v
      | STATE_SEARCHING_REGION =>
          if is_potential_region U col_a col_b col_c col_d
          then region_found U v col_c col_d
          else Ok v
      | STATE_SEARCHING_NATION_MARKER =>
          if truthy (current_region v) && truthy col_c
             && contains nation_marker_phrase (lower U (text col_c))
          then Ok {| data := data v;
                     current_region := current_region v;
                     total_population := total_population v;
                     last_federal_district := last_federal_district v;
                     state := STATE_READING_NATIONS |}
          else Ok v
      | STATE_READING_NATIONS =>
          if is_potential_nationality U (current_region v) col_a col_c col_d
          then nation_found U v col_c col_d
          else if is_None col_a && is_None col_c && is_None col_d
          then Ok {| data := data v;
                     current_region := None;
                     total_population := total_population v;
                     last_federal_district := last_federal_district v;
                     state := STATE_SEARCHING_REGION |}
          else Ok v
      end.
Proof. intros [more E]. unfold process_row. rewrite E. reflexivity. Qed.

Lemma columns_or_short r :
  (exists a b c d, columns U r a b c d) \/ (forall a b c d, ¬ columns U r a b c d).
Proof.
  destruct (clean U <$> r) as [|a [|b [|c [|d more]]]] eqn:E;
    [right; intros ? ? ? ? [? H]; congruence..|].
  left. exists a, b, c, d, more. done.
Qed.

(** *** Before the first federal district *)

Lemma process_row_searching_fo v r v' :
  state v = STATE_SEARCHING_FO -> ¬ federal_district_row U r ->
  process_row U v r = Ok v' -> v' = v.
Proof.
  intros Hst Hfo. destruct (columns_or_short r) as [(a & b & c & d & Hc)|Hshort].
  - rewrite (process_row_columns v r a b c d Hc), Hst.
    destruct (is_federal_district_row U b c) eqn:E.
    + destruct Hfo. by exists a, b, c, d.
    + by intros [= <-].
  - by rewrite process_row_short.
Qed.

Lemma iterrows_searching_fo v pre v' :
  state v = STATE_SEARCHING_FO ->
  Forall (fun r => ¬ federal_district_row U r) pre ->
  iterrows U v pre = Ok v' -> v' = v.
Proof.
  intros Hst Hpre. induction Hpre as [|r pre Hr _ IH]; simpl.
  - by intros [= <-].
  - destruct (process_row U v r) as [v1|e] eqn:E; simpl; [|discriminate].
    apply process_row_searching_fo in E as ->; done.
Qed.

(** C10: as long as no row has had the federal-district phrase in column B
    or C, the scanner is in its initial state: after any such prefix of the
    sheet that it reads without an exception, the map is empty and the state
    is still SEARCHING_FEDERAL_DISTRICT, and a sheet without such a row
    yields the empty map; in that state a row either changes nothing or is a
    federal-district row, which moves the scanner to SEARCHING_REGION and
    leaves the map as it is. *)
Theorem no_region_before_federal_district (pre : list row) :
  Forall (fun r => ¬ federal_district_row U r) pre ->
  (forall v, iterrows U initial pre = Ok v -> v = initial)
  /\ read_nationality_data U (DataFrame pre) = ∅
  /\ (forall v r v',
        state v = STATE_SEARCHING_FO ->
        process_row U v r = Ok v' ->
        v' = v
        \/ (federal_district_row U r
            /\ state v' = STATE_SEARCHING_REGION /\ data v' = data v)).
Proof.
  intros Hpre.
  assert (forall v, iterrows U initial pre = Ok v -> v = initial) as H.
  { intros v. by apply iterrows_searching_fo. }
  split; [done|]. split.
  - unfold read_nationality_data.
    destruct (iterrows U initial pre) as [v|e] eqn:E; [|done].
    by rewrite (H v).
  - intros v r v' Hst Hrow.
    destruct (columns_or_short r) as [(a & b & c & d & Hc)|Hshort];
      [|by rewrite process_row_short in Hrow].
    rewrite (process_row_columns v r a b c d Hc), Hst in Hrow.
    destruct (is_federal_district_row U b c) eqn:E.
    + right. injection Hrow as <-. split; [by exists a, b, c, d | done].
    + left. by injection Hrow as <-.
Qed.

(** *** Populations stored are positive *)

Lemma region_found_positive v col_c col_d v' :
  region_found U v col_c col_d = Ok v' ->
  positive_nations (data v) -> positive_nations (data v').
Proof.
  unfold region_found. destruct (data v !! _) eqn:El; [by intros [= <-]|].
  destruct (py_int U (text col_d)) as [total|]; simpl; [|discriminate].
  intros [= <-] Hpos region t ns nation pop. simpl.
  rewrite lookup_insert. case_decide.
  - intros [= <- <-]. by rewrite lookup_empty.
  - apply Hpos.
Qed.

Lemma nation_found_positive v col_c col_d v' :
  nation_found U v col_c col_d = Ok v' ->
  positive_nations (data v) -> positive_nations (data v').
Proof.
  unfold nation_found.
  destruct (py_int U (text col_d)) as [nation_pop|]; simpl; [|discriminate].
  case_bool_decide as Hpop; [|by intros [= <-]].
  destruct (current_region v) as [region|]; [|by intros [= <-]].
  destruct (data v !! region) as [[total nations]|] eqn:El; [|by intros [= <-]].
  intros [= <-] Hpos region' t ns nation pop. simpl.
  rewrite lookup_insert. case_decide as Hr.
  - intros [= <- <-]. rewrite lookup_insert. case_decide.
    + intros [= <-]. lia.
    + by apply (Hpos region total nations).
  - apply Hpos.
Qed.

Lemma process_row_positive v r v' :
  process_row U v r = Ok v' ->
  positive_nations (data v) -> positive_nations (data v').
Proof.
  destruct (columns_or_short r) as [(a & b & c & d & Hc)|Hshort];
    [|by rewrite process_row_short].
  rewrite (process_row_columns v r a b c d Hc).
  destruct (is_federal_district_row U b c); [by intros [= <-]|].
  destruct (state v).
  - by intros [= <-].
  - destruct (is_potential_region U a b c d); [|by intros [= <-]].
    apply region_found_positive.
  - destruct (_ && _); by intros [= <-].
  - destruct (is_potential_nationality U _ a c d); [apply nation_found_positive|].
    destruct (_ && _); by intros [= <-].
Qed.

Lemma iterrows_positive v df v' :
  iterrows U v df = Ok v' ->
  positive_nations (data v) -> positive_nations (data v').
Proof.
  revert v. induction df as [|r df IH]; intros v; simpl.
  - by intros [= <-].
  - destruct (process_row U v r) as [v1|e] eqn:E; simpl; [|discriminate].
    intros H Hpos. apply (IH v1 H). by apply (process_row_positive v r).
Qed.

Lemma read_nationality_data_positive file :
  positive_nations (read_nationality_data U file).
Proof.
  assert (positive_nations ∅) as Hempty.
  { intros region total nations nation pop. by rewrite lookup_empty. }
  destruct file as [| |df]; simpl; try done.
  destruct (iterrows U initial df) as [v|e] eqn:E; [|done].
  by apply (iterrows_positive initial df v).
Qed.

End NationalityFacts.

(** ** Boolean tests and what they decide *)

Lemma truthy_true o : truthy o = true <-> exists s, o = Some s /\ s ≠ [].
Proof.
  split.
  - destruct o as [[|c s]|]; try discriminate. intros _. by exists (c :: s).
  - intros (s & -> & Hs). by destruct s.
Qed.

Lemma is_None_true o : is_None o = true <-> o = None.
Proof. by destruct o. Qed.

Lemma str_isdigit_true U s : str_isdigit U s = true <-> digits U s.
Proof.
  unfold str_isdigit, digits. destruct s as [|c s].
  - split; [discriminate | by intros [? _]].
  - rewrite forallb_forall, Forall_forall. split.
    + intros H. split; [done|]. intros x Hx. apply H. by apply list_elem_of_In.
    + intros [_ H] x Hx. apply H. by apply list_elem_of_In.
Qed.

Lemma startswith_true sub s : startswith sub s = true <-> exists post, s = sub ++ post.
Proof.
  revert s. induction sub as [|a sub IH]; intros s; simpl.
  - split; [by exists s | done].
  - destruct s as [|b s].
    + split; [discriminate | by intros [? ?]].
    + rewrite andb_true_iff, N.eqb_eq, IH. split.
      * intros [-> [post ->]]. by exists post.
      * intros [post [= -> ->]]. split; [done | by exists post].
Qed.

Lemma contains_true sub s : contains sub s = true <-> has_phrase sub s.
Proof.
  unfold has_phrase. induction s as [|c s IH]; simpl.
  - rewrite orb_false_r, startswith_true. split.
    + intros [post H]. by exists [], post.
    + intros (pre & post & H). symmetry in H.
      apply app_eq_nil in H as [-> H]. exists post. done.
  - rewrite orb_true_iff, startswith_true, IH. split.
    + intros [[post H]|(pre & post & ->)]; [by exists [], post|].
      by exists (c :: pre), post.
    + intros ([|x pre] & post & H); [left; by exists post|].
      right. injection H as -> ->. by exists pre, post.
Qed.

Lemma split_on_before sep s : before_first sep s (split_on sep s).1.
Proof.
  unfold before_first. induction s as [|c s IH]; simpl.
  - split; [apply not_elem_of_nil|]. exists []. split; [done | by left].
  - destruct (split_on sep s) as [h t]. simpl in IH.
    destruct (N.eqb_spec c sep) as [->|Hne]; simpl.
    + split; [apply not_elem_of_nil|]. exists (sep :: s). split; [done|].
      right. by exists s.
    + destruct IH as [Hh (rest & -> & Hrest)]. split.
      * rewrite elem_of_cons. intros [->|?]; done.
      * exists rest. done.
Qed.

Lemma before_first_unique sep s idx idx' :
  before_first sep s idx -> before_first sep s idx' -> idx = idx'.
Proof.
  intros [Hn (rest & -> & Hrest)]. revert idx'.
  induction idx as [|c idx IH]; intros idx' [Hn' (rest' & E & Hrest')].
  - destruct idx' as [|c' idx']; [done|]. simpl in E.
    destruct Hrest as [->|[r ->]]; [discriminate|].
    injection E as <- _. destruct Hn'. apply list_elem_of_here.
  - destruct idx' as [|c' idx'].
    + simpl in E. destruct Hrest' as [->|[r ->]]; [discriminate|].
      injection E as -> _. destruct Hn. apply list_elem_of_here.
    + injection E as <- E. f_equal. apply IH.
      * intros H. apply Hn. by apply list_elem_of_further.
      * split; [|by exists rest'].
        intros H. apply Hn'. by apply list_elem_of_further.
Qed.

Lemma potential_region_iff U col_a col_b col_c col_d :
  Nationality.is_potential_region U col_a col_b col_c col_d = true
  <-> region_header U col_a col_b col_c col_d.
Proof.
  unfold Nationality.is_potential_region, region_header.
  rewrite !andb_true_iff, !negb_true_iff, bool_decide_eq_true, is_None_true.
  rewrite !truthy_true, !str_isdigit_true.
  rewrite <- !not_true_iff_false, !contains_true.
  split.
  - intros [[[[[[[[(a & -> & Ha) Hidx] ->] (c & -> & Hc)] (d & -> & Hd)] Hdd] Hfo] Hm] Hlen].
    split; [|split; [reflexivity|split]].
    + exists a, (split_on ch_dot a).1.
      split; [reflexivity|]. split; [apply split_on_before | exact Hidx].
    + exists c. exact (conj eq_refl (conj Hlen (conj Hfo Hm))).
    + exists d. exact (conj eq_refl Hdd).
  - intros [(a & idx & -> & Hb & Hidx) [-> [(c & -> & Hlen & Hfo & Hm) (d & -> & Hd)]]].
    assert ((split_on ch_dot a).1 = idx) as E.
    { eapply before_first_unique; [apply split_on_before | done]. }
    simpl. rewrite E.
    refine (conj (conj (conj (conj (conj (conj (conj (conj _ Hidx) eq_refl) _) _)
                                    Hd) Hfo) Hm) Hlen).
    + exists a. split; [reflexivity|]. destruct Hb as [_ (rest & -> & _)].
      destruct Hidx as [Hne _]. destruct idx; [congruence | discriminate].
    + exists c. split; [reflexivity|]. destruct c; [simpl in Hlen; lia | discriminate].
    + exists d. split; [reflexivity|]. apply Hd.
Qed.

(** ** Claims about the nationality scanner *)

Section NationalityClaims.

Import Nationality.

Context (U : unicode_db).

Lemma potential_region_not_fo col_a col_b col_c col_d :
  is_potential_region U col_a col_b col_c col_d = true ->
  is_federal_district_row U col_b col_c = false.
Proof.
  unfold is_potential_region, is_federal_district_row.
  rewrite !andb_true_iff, !negb_true_iff, is_None_true.
  intros [[[[[[[[_ _] ->] _] _] _] Hfo] _] _].
  simpl. by rewrite Hfo, andb_false_r.
Qed.

(** C5 (as amended): in state SEARCHING_REGION a row is taken for a region
    header exactly when the text of column A before its first period is a
    non-empty run of digits, column B is empty, column C is longer than 3
    characters and contains, in lower case, neither the federal-district
    phrase nor the nation-marker phrase, and column D is a non-empty run of
    digits; the scanner then runs the region branch on it. *)
Theorem region_header_accepted (v : vars) (r : row)
    (col_a col_b col_c col_d : option str) :
  (is_potential_region U col_a col_b col_c col_d = true
   <-> region_header U col_a col_b col_c col_d)
  /\ (state v = STATE_SEARCHING_REGION ->
      columns U r col_a col_b col_c col_d ->
      region_header U col_a col_b col_c col_d ->
      process_row U v r = region_found U v col_c col_d).
Proof.
  split; [apply potential_region_iff|].
  intros Hst Hc Hh. apply potential_region_iff in Hh.
  rewrite (process_row_columns U v r _ _ _ _ Hc), Hst, Hh.
  by rewrite (potential_region_not_fo _ _ _ _ Hh).
Qed.

(** C6: in state SEARCHING_REGION, a row that qualifies as a region header
    and whose cleaned name is already a key of the map changes nothing: the
    map, and all the scanner's variables, are as before. *)
Theorem duplicate_region_dropped (v : vars) (r : row)
    (col_a col_b col_c col_d : option str) :
  state v = STATE_SEARCHING_REGION ->
  columns U r col_a col_b col_c col_d ->
  is_potential_region U col_a col_b col_c col_d = true ->
  is_Some (data v !! strip U (replace ch_newline ch_space (text col_c))) ->
  process_row U v r = Ok v.
Proof.
  intros Hst Hc Hp [entry Hin].
  rewrite (process_row_columns U v r _ _ _ _ Hc), Hst, Hp.
  rewrite (potential_region_not_fo _ _ _ _ Hp).
  unfold region_found. by rewrite Hin.
Qed.

(** A nation row with the count 0 is read and leaves the map as it is. *)
Lemma zero_population_not_stored (v : vars) (r : row)
    (col_a col_b col_c col_d : option str) :
  state v = STATE_READING_NATIONS ->
  columns U r col_a col_b col_c col_d ->
  is_federal_district_row U col_b col_c = false ->
  is_potential_nationality U (current_region v) col_a col_c col_d = true ->
  py_int U (text col_d) = Ok 0 ->
  process_row U v r = Ok v.
Proof.
  intros Hst Hc Hfo Hp Hz.
  rewrite (process_row_columns U v r _ _ _ _ Hc), Hst, Hp, Hfo.
  unfold nation_found. by rewrite Hz.
Qed.

(** C7: in the map the nationality scanner returns, every population stored
    under a region is strictly positive; a nation row whose count reads as 0
    is recognised as a nation row and nothing is stored for it. *)
Theorem stored_populations_positive (file : excel) :
  (forall region total nations nation pop,
     read_nationality_data U file !! region = Some (total, nations) ->
     nations !! nation = Some pop ->
     0 < pop)
  /\ (forall v r col_a col_b col_c col_d,
        state v = STATE_READING_NATIONS ->
        columns U r col_a col_b col_c col_d ->
        is_federal_district_row U col_b col_c = false ->
        is_potential_nationality U (current_region v) col_a col_c col_d = true ->
        py_int U (text col_d) = Ok 0 ->
        process_row U v r = Ok v).
Proof.
  split.
  - apply read_nationality_data_positive.
  - apply zero_population_not_stored.
Qed.

Lemma iterrows_app v pre rest :
  iterrows U v (pre ++ rest) = iterrows U v pre ≫= fun v' => iterrows U v' rest.
Proof.
  revert v. induction pre as [|r pre IH]; intros v; simpl; [done|].
  destruct (process_row U v r); simpl; [apply IH | done].
Qed.

(** When a row of the nationality sheet raises, the function returns the
    empty map, whatever it had stored. *)
Lemma nationality_row_raises pre r post v e :
  iterrows U initial pre = Ok v ->
  process_row U v r = Raise e ->
  read_nationality_data U (DataFrame (pre ++ r :: post)) = ∅.
Proof.
  intros Hv He. unfold read_nationality_data.
  rewrite iterrows_app, Hv. simpl. by rewrite He.
Qed.

Lemma sample_sheet_after_first fo_row marker v :
  iterrows U v (sample_sheet fo_row marker) =
  process_row U v fo_row ≫= fun v' => iterrows U v' (tail (sample_sheet fo_row marker)).
Proof. reflexivity. Qed.

(** C4 (as amended): on the six-row sheet of the scenario, where the first
    row is any row the scanner takes for a federal-district marker (its
    column B or C has "федеральный округ") and the marker row has
    "Указавшие национальную принадлежность" in column C (the source's text
    for "indicating nationality affiliation"), the scanner returns exactly
    {"Sample Region": (1000, {"Russians": 800})}. *)
Theorem sample_sheet_result (fo_row : row) :
  federal_district_row U fo_row ->
  read_nationality_data U
    (DataFrame (sample_sheet fo_row (py "Указавшие национальную принадлежность")))
  = sample_result.
Proof.
  intros (a & b & c & d & Hc & Hfo).
  unfold read_nationality_data. rewrite sample_sheet_after_first.
  rewrite (process_row_columns U _ _ _ _ _ _ Hc), Hfo.
  generalize (Some (strip U (text b ++ [ch_space] ++ text c))). intros fo_name.
  vm_compute. reflexivity.
Qed.

End NationalityClaims.

(** ** The age/sex scanner *)

Section AgeSexFacts.

Import AgeSex.

Context (U : unicode_db).

Lemma index_Ok {A} (l : list A) i x : index l i = Ok x <-> l !! i = Some x.
Proof. unfold index. destruct (l !! i); split; congruence. Qed.

(** Reading an age row adds no region. *)
Lemma read_ages_regions v region row_values v' key :
  read_ages U v region row_values = Ok v' ->
  is_Some (data v' !! key) -> is_Some (data v !! key).
Proof.
  unfold read_ages.
  destruct (index row_values 3) as [age|]; simpl; [|discriminate].
  destruct (index row_values 8) as [male|]; simpl; [|discriminate].
  destruct (index row_values 9) as [female|]; simpl; [|discriminate].
  destruct (_ && _).
  - destruct (parse_age_group U (text age)) as [bounds|]; simpl; [|discriminate].
    case_bool_decide; [|by intros [= <-]].
    destruct (py_int U (text male)) as [males|]; simpl; [|discriminate].
    destruct (py_int U (text female)) as [females|]; simpl; [|discriminate].
    destruct (data v !! region) as [ages|] eqn:E; [|discriminate].
    intros [= <-]. simpl. rewrite lookup_insert. case_decide; [|done].
    subst. by rewrite E.
  - destruct (_ && _); [|by intros [= <-]].
    destruct (data v !! region) as [ages|]; [|discriminate].
    case_bool_decide; by intros [= <-].
Qed.

Lemma next_row_confirms_true next :
  next_row_confirms U next = Ok true ->
  exists next_row cell,
    next = Some next_row
    /\ (clean_next U <$> next_row) !! 3%nat = Some cell
    /\ truthy cell = true
    /\ has_phrase urban_and_rural_phrase (lower U (text cell)).
Proof.
  unfold next_row_confirms. destruct next as [next_row|]; [|discriminate].
  destruct (index _ 3) as [cell|] eqn:E; simpl; [|discriminate].
  intros [= H]. apply andb_true_iff in H as [Ht Hc].
  exists next_row, cell. rewrite <- contains_true. by apply index_Ok in E.
Qed.

(** A row adds a region to the map only as a confirmed header. *)
Lemma process_row_regions v r next v' key :
  process_row U v r next = Ok v' ->
  is_Some (data v' !! key) ->
  is_Some (data v !! key) \/ confirmed_header U r next key.
Proof.
  unfold process_row.
  destruct (index (clean U <$> r) 3) as [candidate|] eqn:Ec; simpl; [|discriminate].
  destruct (is_region_candidate U candidate) as [[|]|] eqn:Ei; simpl;
    [| |discriminate].
  - destruct (next_row_confirms U next) as [[|]|] eqn:En; simpl; [| |discriminate].
    + intros [= <-]. simpl. rewrite lookup_insert. case_decide as Hk; [|by left].
      intros _. right.
      apply next_row_confirms_true in En as (next_row & cell & -> & Hcell & Ht & Hp).
      exists next_row, candidate, cell. apply index_Ok in Ec. done.
    + destruct (_ && _); [|intros [= <-]; by left].
      intros H1 H2. left. by eapply read_ages_regions.
  - destruct (_ && _); [|intros [= <-]; by left].
    intros H1 H2. left. by eapply read_ages_regions.
Qed.

Lemma iterrows_regions pre rest v v' :
  iterrows U v rest = Ok v' ->
  (forall key, is_Some (data v !! key) ->
     exists i, region_header_at U (pre ++ rest) i key) ->
  forall key, is_Some (data v' !! key) ->
    exists i, region_header_at U (pre ++ rest) i key.
Proof.
  revert pre v. induction rest as [|r rest IH]; intros pre v; simpl.
  - by intros [= <-].
  - destruct (process_row U v r (head rest)) as [v1|] eqn:E; simpl; [|discriminate].
    intros Hrest Hv. rewrite cons_middle, (assoc_L (++)).
    apply (IH (pre ++ [r]) v1 Hrest). intros key Hkey.
    rewrite <- (assoc_L (++)), <- cons_middle.
    destruct (process_row_regions _ _ _ _ _ E Hkey) as [Hold|Hnew]; [by apply Hv|].
    exists (length pre), r. split.
    + by rewrite list_lookup_middle.
    + replace ((pre ++ r :: rest) !! S (length pre)) with (head rest); [done|].
      rewrite cons_middle, (assoc_L (++)), lookup_app_r;
        rewrite length_app; simpl; [|lia].
      replace (S (length pre) - (length pre + 1))%nat with 0%nat by lia.
      by destruct rest.
Qed.

(** C9: every region of the map the age/sex scanner returns was registered
    for a row that passes the region-header heuristics and is immediately
    followed by a row whose region-name column has the "urban and rural"
    phrase; and a row whose next row is absent or lacks the phrase adds no
    region to the map. *)
Theorem region_needs_urban_and_rural :
  (forall file region,
     is_Some (read_age_sex_data U file !! region) ->
     exists df i, file = DataFrame df /\ region_header_at U df i region)
  /\ (forall v r next v',
        process_row U v r next = Ok v' ->
        next_row_confirms U next ≠ Ok true ->
        forall key, is_Some (data v' !! key) -> is_Some (data v !! key)).
Proof.
  split.
  - intros file region Hin.
    destruct file as [| |df]; simpl in Hin;
      try (rewrite lookup_empty in Hin; by destruct Hin).
    destruct (iterrows U initial df) as [v|] eqn:E;
      [|rewrite lookup_empty in Hin; by destruct Hin].
    exists df.
    destruct (iterrows_regions [] df initial v E) with (key := region) as [i Hi];
      [|done|by exists i].
    intros key. simpl. rewrite lookup_empty. by intros [? ?].
  - intros v r next v' Hrow Hnext key Hkey.
    destruct (process_row_regions _ _ _ _ _ Hrow Hkey) as [Hold|Hnew]; [done|].
    destruct Hnew as (next_row & candidate & cell & -> & _ & _ & Hcell & Ht & Hp & _).
    destruct Hnext. unfold next_row_confirms.
    apply index_Ok in Hcell. rewrite Hcell. simpl.
    apply contains_true in Hp. by rewrite Ht, Hp.
Qed.

(** *** Exceptions *)

Lemma result_bind_Ok {A} (m : result A) : m ≫= Ok = m.
Proof. by destruct m. Qed.

Lemma result_bind_assoc {A B C} (m : result A) (f : A -> result B)
    (g : B -> result C) :
  (m ≫= f) ≫= g = m ≫= (fun a => f a ≫= g).
Proof. by destruct m. Qed.

Lemma iterrows_from pre rest :
  age_sex_state_before U (pre ++ rest) (length pre)
    ≫= (fun v => iterrows U v rest)
  = age_sex_state_before U (pre ++ rest) (length pre + length rest).
Proof.
  revert pre. induction rest as [|r rest IH]; intros pre.
  - simpl. by rewrite Nat.add_0_r, result_bind_Ok.
  - specialize (IH (pre ++ [r])).
    rewrite <- (assoc_L (++)), <- cons_middle in IH.
    rewrite length_app in IH. simpl in IH.
    replace (length pre + length (r :: rest))%nat
      with (length pre + 1 + length rest)%nat by (simpl; lia).
    rewrite <- IH. replace (length pre + 1)%nat with (S (length pre)) by lia.
    simpl. rewrite result_bind_assoc. f_equal.
    rewrite list_lookup_middle by done.
    replace ((pre ++ r :: rest) !! S (length pre)) with (head rest); [done|].
    rewrite cons_middle, (assoc_L (++)), lookup_app_r;
      rewrite length_app; simpl; [|lia].
    replace (S (length pre) - (length pre + 1))%nat with 0%nat by lia.
    by destruct rest.
Qed.

Lemma iterrows_state_before df :
  iterrows U initial df = age_sex_state_before U df (length df).
Proof. apply (iterrows_from [] df). Qed.

Lemma state_before_raise df i j e :
  age_sex_state_before U df i = Raise e -> (i <= j)%nat ->
  age_sex_state_before U df j = Raise e.
Proof.
  intros H Hle. induction Hle as [|j _ IH]; [done|]. simpl. by rewrite IH.
Qed.

(** When a row of the age/sex sheet raises, the function returns the empty
    map, whatever it had stored. *)
Lemma age_sex_row_raises df i v r e :
  age_sex_state_before U df i = Ok v ->
  df !! i = Some r ->
  process_row U v r (df !! S i) = Raise e ->
  read_age_sex_data U (DataFrame df) = ∅.
Proof.
  intros Hv Hr He. unfold read_age_sex_data.
  rewrite iterrows_state_before.
  rewrite (state_before_raise df (S i) (length df) e); [done| |].
  - simpl. by rewrite Hv, Hr.
  - by apply lookup_lt_Some in Hr.
Qed.

End AgeSexFacts.

(** ** Failure modes of the two scanners *)

(** C8: neither scanner raises to its caller. With a missing file, or when
    reading the file raises, the result is the empty map; and when the loop
    raises at some row (a row too short for the columns it reads, a count
    [int] rejects) the result is the empty map too, whatever the rows before
    had stored. *)
Theorem scanners_never_raise (U : unicode_db) :
  (Nationality.read_nationality_data U FileNotFoundError = ∅
   /\ Nationality.read_nationality_data U ReadError = ∅
   /\ (forall df e,
         Nationality.iterrows U Nationality.initial df = Raise e ->
         Nationality.read_nationality_data U (DataFrame df) = ∅)
   /\ (forall pre r post v e,
         Nationality.iterrows U Nationality.initial pre = Ok v ->
         Nationality.process_row U v r = Raise e ->
         Nationality.read_nationality_data U (DataFrame (pre ++ r :: post)) = ∅))
  /\ (AgeSex.read_age_sex_data U FileNotFoundError = ∅
      /\ AgeSex.read_age_sex_data U ReadError = ∅
      /\ (forall df e,
            AgeSex.iterrows U AgeSex.initial df = Raise e ->
            AgeSex.read_age_sex_data U (DataFrame df) = ∅)
      /\ (forall df i v r e,
            age_sex_state_before U df i = Ok v ->
            df !! i = Some r ->
            AgeSex.process_row U v r (df !! S i) = Raise e ->
            AgeSex.read_age_sex_data U (DataFrame df) = ∅)).
Proof.
  split; (split; [reflexivity|]; split; [reflexivity|]; split).
  - intros df e H. simpl. by rewrite H.
  - apply nationality_row_raises.
  - intros df e H. simpl. by rewrite H.
  - apply age_sex_row_raises.
Qed.

(** A sheet whose first block is read and stored and whose last row is too
    short: nothing of the first block is returned. *)
Lemma scanners_never_raise_witness :
  Nationality.read_nationality_data plain_db
    (DataFrame (sample_sheet fo_row_ru marker_ru ++ [short_row])) = ∅
  /\ AgeSex.read_age_sex_data plain_db
       (DataFrame (age_sheet ++ [short_row])) = ∅.
Proof.
  split.
  - eapply (proj2 (proj2 (proj2 (proj1 (scanners_never_raise plain_db))))
              (sample_sheet fo_row_ru marker_ru) short_row []).
    + vm_compute. reflexivity.
    + reflexivity.
  - eapply (proj2 (proj2 (proj2 (proj2 (scanners_never_raise plain_db))))
              (age_sheet ++ [short_row]) 4%nat).
    + vm_compute. reflexivity.
    + reflexivity.
    + reflexivity.
Defined.

(** ** The scenarios *)

Lemma fo_row_ru_recognised U : federal_district_row U fo_row_ru.
Proof.
  exists None, None, (Some (py "Центральный федеральный округ")), None.
  split; [by exists [] | reflexivity].
Qed.

Lemma sample_sheet_result_witness :
  Nationality.read_nationality_data plain_db
    (DataFrame (sample_sheet fo_row_ru marker_ru)) = sample_result.
Proof.
  apply (sample_sheet_result plain_db fo_row_ru), fo_row_ru_recognised.
Defined.

(** C4 as stated fails: the marker the scanner looks for is the Russian
    phrase, so with "indicating nationality affiliation" in the marker row
    the scanner never starts to read nations and the region has no nation;
    and with an English federal-district row no region is found at all. *)
Lemma sample_sheet_counterexample :
  (forall U, Nationality.read_nationality_data U
               (DataFrame (sample_sheet fo_row_ru marker_en))
             = {[ py "Sample Region" := (1000, ∅) ]})
  /\ (forall U, Nationality.read_nationality_data U
                  (DataFrame (sample_sheet fo_row_en marker_en)) = ∅)
  /\ ({[ py "Sample Region" := (1000, ∅) ]} : Nationality.regions) ≠ sample_result
  /\ (∅ : Nationality.regions) ≠ sample_result.
Proof.
  split; [intros U; vm_compute; reflexivity|].
  split; [intros U; vm_compute; reflexivity|].
  split.
  - intros H.
    apply (f_equal (fun m : Nationality.regions =>
                      m !! py "Sample Region" ≫= fun entry => entry.2 !! py "Russians"))
      in H.
    unfold sample_result in H. rewrite !lookup_singleton_eq in H. simpl in H.
    rewrite lookup_empty, lookup_singleton_eq in H. discriminate.
  - intros H. apply (f_equal (fun m => m !! py "Sample Region")) in H.
    unfold sample_result in H. rewrite lookup_empty, lookup_singleton_eq in H.
    discriminate.
Qed.

(** C5 as stated fails. A row with "1a" in column A meets every condition
    of the claim (column A starts with a digit) and is not taken for a region
    header; and "1.5", which is more than an index and a period, is taken for
    one. *)
Lemma region_header_counterexample :
  (forall U, region_header_as_stated U
               (Some (py "1a")) None (Some (py "Sample Region")) (Some (py "1000")))
  /\ (forall U, Nationality.is_potential_region U
                  (Some (py "1a")) None (Some (py "Sample Region")) (Some (py "1000"))
                = false)
  /\ (forall U, Nationality.is_potential_region U
                  (Some (py "1.5")) None (Some (py "Sample Region")) (Some (py "1000"))
                = true).
Proof.
  split; [|split; intros U; reflexivity].
  intros U. split; [|split; [reflexivity|split]].
  - exists (py "1a"). split; [reflexivity|]. by exists 49%N, [97%N].
  - exists (py "Sample Region"). split; [reflexivity|]. split; [simpl; lia|].
    rewrite <- !contains_true. by split.
  - exists (py "1000"). split; [reflexivity|]. by apply str_isdigit_true.
Qed.

Lemma region_header_accepted_witness :
  Nationality.process_row plain_db
    {| Nationality.data := ∅; Nationality.current_region := None;
       Nationality.total_population := None;
       Nationality.last_federal_district := None;
       Nationality.state := Nationality.STATE_SEARCHING_REGION |}
    [Some (py "1."); None; Some (py "Sample Region"); Some (py "1000")]
  = Ok {| Nationality.data := {[ py "Sample Region" := (1000, ∅) ]};
          Nationality.current_region := Some (py "Sample Region");
          Nationality.total_population := Some 1000;
          Nationality.last_federal_district := None;
          Nationality.state := Nationality.STATE_SEARCHING_NATION_MARKER |}.
Proof.
  rewrite (proj2 (region_header_accepted plain_db _
             [Some (py "1."); None; Some (py "Sample Region"); Some (py "1000")]
             (Some (py "1.")) None (Some (py "Sample Region")) (Some (py "1000")))).
  - vm_compute. reflexivity.
  - reflexivity.
  - by exists [].
  - apply potential_region_iff. reflexivity.
Defined.

Lemma duplicate_region_dropped_witness :
  Nationality.process_row plain_db after_sample_region
    [Some (py "7."); None; Some (py "Sample Region"); Some (py "55")]
  = Ok after_sample_region.
Proof.
  apply (duplicate_region_dropped plain_db after_sample_region _
           (Some (py "7.")) None (Some (py "Sample Region")) (Some (py "55"))).
  - reflexivity.
  - by exists [].
  - reflexivity.
  - exists (1000, {[ py "Russians" := 800 ]}). vm_compute. reflexivity.
Defined.

Lemma stored_populations_positive_witness : 0 < 800.
Proof.
  apply (proj1 (stored_populations_positive plain_db
                  (DataFrame (sample_sheet fo_row_ru marker_ru)))
           (py "Sample Region") 1000 {[ py "Russians" := 800 ]} (py "Russians") 800).
  - vm_compute. reflexivity.
  - vm_compute. reflexivity.
Defined.

(** A sheet that starts with a region row: without a federal-district row
    before it, the region is not registered. *)
Lemma no_region_before_federal_district_witness :
  Nationality.read_nationality_data plain_db
    (DataFrame [[Some (py "1."); None; Some (py "Sample Region"); Some (py "1000")]])
  = ∅.
Proof.
  apply (no_region_before_federal_district plain_db).
  constructor; [|constructor].
  intros (a & b & c & d & [more E] & H).
  injection E as <- <- <- <- _. discriminate H.
Defined.

Lemma region_needs_urban_and_rural_witness :
  exists df i, DataFrame age_sheet = DataFrame df
    /\ region_header_at plain_db df i (py "Белгородская область").
Proof.
  apply (proj1 (region_needs_urban_and_rural plain_db)).
  eexists. vm_compute. reflexivity.
Defined.

(** * Further properties of the parser *)

(** ** What a match is made of *)

Section MatchFacts.

Context (U : unicode_db) (ic : bool).

Lemma star_exec_inv p s k m :
  star_exec p s k = Some m ->
  exists run rest,
    s = run ++ rest /\ Forall (fun c => p c = true) run /\ k rest = Some m.
Proof.
  induction s as [|c s IH]; simpl.
  - intros H. by exists [], [].
  - destruct (p c) eqn:Hc; [|intros H; by exists [], (c :: s)].
    destruct (star_exec p s k) as [g|] eqn:E.
    + intros [= ->]. destruct (IH eq_refl) as (run & rest & -> & Hrun & Hk).
      exists (c :: run), rest. split; [done|]. split; [by constructor | done].
    + intros H. by exists [], (c :: s).
Qed.

(** A successful match went through its continuation, and the groups a
    regular expression does not have are as they were. *)
Lemma exec_inv r s g k m :
  exec U ic r s g k = Some m ->
  exists s' g',
    k s' g' = Some m /\ forall i, has_group i r = false -> g' i = g i.
Proof.
  revert s g k. induction r as [|p|cl|cl|cl|r1 IH1 r2 IH2|r1 IH1 r2 IH2|r1 IH1|j r1 IH1|];
    intros s g k; simpl.
  - intros H. by exists s, g.
  - destruct s as [|c s]; [done|]. destruct (lit_match U ic p c); [|done].
    intros H. by exists s, g.
  - destruct s as [|c s]; [done|]. destruct (in_class U cl c); [|done].
    intros H. by exists s, g.
  - intros H. apply star_exec_inv in H as (run & rest & _ & _ & H).
    by exists rest, g.
  - destruct s as [|c s]; [done|]. destruct (in_class U cl c); [|done].
    intros H. apply star_exec_inv in H as (run & rest & _ & _ & H).
    by exists rest, g.
  - intros H. apply IH1 in H as (s1 & g1 & H & Hf1).
    apply IH2 in H as (s2 & g2 & H & Hf2).
    exists s2, g2. split; [done|]. intros i Hi.
    apply orb_false_iff in Hi as [Hi1 Hi2]. by rewrite Hf2, Hf1.
  - destruct (exec U ic r1 s g k) as [g'|] eqn:E.
    + intros [= ->]. apply IH1 in E as (s1 & g1 & H & Hf).
      exists s1, g1. split; [done|]. intros i Hi.
      apply orb_false_iff in Hi as [Hi1 Hi2]. by apply Hf.
    + intros H. apply IH2 in H as (s1 & g1 & H & Hf).
      exists s1, g1. split; [done|]. intros i Hi.
      apply orb_false_iff in Hi as [Hi1 Hi2]. by apply Hf.
  - destruct (exec U ic r1 s g k) as [g'|] eqn:E.
    + intros [= ->]. apply IH1 in E as (s1 & g1 & H & Hf). by exists s1, g1.
    + intros H. by exists s, g.
  - intros H. apply IH1 in H as (s1 & g1 & H & Hf).
    eexists s1, _. split; [exact H|]. intros i Hi.
    apply orb_false_iff in Hi as [Hi1 Hi2]. apply bool_decide_eq_false in Hi1.
    unfold set_group. destruct (decide (i = j)); [congruence|]. by apply Hf.
  - destruct s as [|c [|c' s]].
    + intros H. by exists [], g.
    + destruct (c =? ch_newline)%N; [|done]. intros H. by exists [c], g.
    + done.
Qed.

(** What the group [(\d+)] holds after a match. *)
Lemma exec_group_digits_inv i s g k m :
  exec U ic (RGroup i (RPlus CDigit)) s g k = Some m ->
  exists run rest,
    s = run ++ rest /\ decimal_run U run /\ k rest (set_group i run g) = Some m.
Proof.
  simpl. destruct s as [|c s]; [done|].
  destruct (bool_decide (is_Some (decimal U c))) eqn:Hc; [|done].
  apply bool_decide_eq_true in Hc.
  intros H. apply star_exec_inv in H as (run & rest & -> & Hrun & H).
  exists (c :: run), rest. split; [done|]. split.
  - split; [done|]. constructor; [done|].
    eapply Forall_impl; [exact Hrun|]. intros x Hx. simpl in Hx.
    by apply bool_decide_eq_true in Hx.
  - rewrite <- H. do 2 f_equal. symmetry.
    apply (take_run (c :: run) [] rest).
Qed.

(** A pattern that starts with [(\d+)] and has no other group 1: the match
    begins with a run of digits, which is group 1. *)
Lemma leading_digits_inv tail s m :
  has_group 1 tail = false ->
  re_match U ic (RSeq (RGroup 1 (RPlus CDigit)) tail) s = Some m ->
  exists run rest,
    s = run ++ rest /\ decimal_run U run /\ m 1%nat = Some run
    /\ exec U ic tail rest (set_group 1 run no_groups) accept = Some m.
Proof.
  intros Htail. unfold re_match. rewrite exec_seq.
  intros H. apply exec_group_digits_inv in H as (run & rest & -> & Hrun & H).
  exists run, rest. split; [done|]. split; [done|]. split; [|done].
  apply exec_inv in H as (s' & g' & [= <-] & Hf). by rewrite Hf.
Qed.

Lemma int_digits_decimal s acc :
  Forall (fun c => is_Some (decimal U c)) s ->
  exists n, int_digits U s acc = Ok n.
Proof.
  intros H. revert acc. induction H as [|c s [d Hd] _ IH]; intros acc; simpl.
  - by exists acc.
  - rewrite Hd. apply IH.
Qed.

(** [int] reads every text [(\d+)] captures. *)
Lemma py_int_decimal_run s :
  decimal_run U s -> exists z, py_int U s = Ok z /\ 0 <= z.
Proof.
  intros [Hne Hs]. unfold py_int. destruct s as [|c s]; [done|].
  destruct (int_digits_decimal (c :: s) 0%N Hs) as [n ->].
  exists (Z.of_N n). split; [done | lia].
Qed.

End MatchFacts.

(** ** The age-group parser on any text *)

Section AgeGroupAnyText.

Context (U : unicode_db).

Lemma older_leading_digits s m :
  re_match U true re_older s = Some m ->
  exists run rest, s = run ++ rest /\ decimal_run U run /\ m 1%nat = Some run.
Proof.
  change re_older with (RSeq (RGroup 1 (RPlus CDigit)) older_tail).
  intros H. apply leading_digits_inv in H as (run & rest & ? & ? & ? & _);
    [by exists run, rest | reflexivity].
Qed.

Lemma single_leading_digits s m :
  re_match U false re_single s = Some m ->
  exists run rest, s = run ++ rest /\ decimal_run U run /\ m 1%nat = Some run.
Proof.
  change re_single with (RSeq (RGroup 1 (RPlus CDigit)) single_tail).
  intros H. apply leading_digits_inv in H as (run & rest & ? & ? & ? & _);
    [by exists run, rest | reflexivity].
Qed.

Lemma range_two_numbers s m :
  re_match U false re_range s = Some m ->
  exists run rest run2,
    s = run ++ rest /\ decimal_run U run /\ m 1%nat = Some run
    /\ decimal_run U run2 /\ m 2%nat = Some run2.
Proof.
  change re_range with (RSeq (RGroup 1 (RPlus CDigit)) range_tail).
  intros H. apply leading_digits_inv in H as (run & rest & Hs & Hrun & H1 & H);
    [|reflexivity].
  unfold range_tail in H. rewrite exec_seq in H.
  apply exec_inv in H as (s1 & g1 & H & _). rewrite exec_seq in H.
  apply exec_inv in H as (s2 & g2 & H & _). rewrite exec_seq in H.
  apply exec_inv in H as (s3 & g3 & H & _).
  apply exec_group_digits_inv in H as (run2 & rest2 & _ & Hrun2 & [= <-]).
  exists run, rest, run2. split; [done|]. split; [done|].
  split; [|done]. exact H1.
Qed.

(** Whatever a pattern captures in its groups, [int] reads. *)
Lemma parse_age_group_total s : exists result, parse_age_group U s = Ok result.
Proof.
  unfold parse_age_group, int_group.
  destruct (re_match U true re_older _) as [m|] eqn:E1.
  { apply older_leading_digits in E1 as (run & rest & _ & Hrun & ->).
    destruct (py_int_decimal_run U run Hrun) as (z & -> & _). by eexists. }
  destruct (re_match U false re_range _) as [m|] eqn:E2.
  { apply range_two_numbers in E2 as (run & rest & run2 & _ & Hrun & -> & Hrun2 & ->).
    destruct (py_int_decimal_run U run Hrun) as (z & -> & _).
    destruct (py_int_decimal_run U run2 Hrun2) as (z2 & -> & _). by eexists. }
  destruct (re_match U false re_single _) as [m|] eqn:E3; [|by eexists].
  apply single_leading_digits in E3 as (run & rest & _ & Hrun & ->).
  destruct (py_int_decimal_run U run Hrun) as (z & -> & _). by eexists.
Qed.


Lemma parse_age_group_starts_with_number s lower upper :
  parse_age_group U s = Ok (Some (lower, upper)) ->
  exists run rest,
    strip U s = run ++ rest /\ decimal_run U run /\ py_int U run = Ok lower.
Proof.
  unfold parse_age_group, int_group.
  destruct (re_match U true re_older _) as [m|] eqn:E1.
  { apply older_leading_digits in E1 as (run & rest & Hs & Hrun & ->).
    destruct (py_int U run) as [z|] eqn:Ez; simpl; [|done].
    intros [= <- <-]. by exists run, rest. }
  destruct (re_match U false re_range _) as [m|] eqn:E2.
  { apply range_two_numbers in E2 as (run & rest & run2 & Hs & Hrun & -> & Hrun2 & ->).
    destruct (py_int U run) as [z|] eqn:Ez; simpl; [|done].
    destruct (py_int U run2) as [z2|] eqn:Ez2; simpl; [|done].
    intros [= <- <-]. by exists run, rest. }
  destruct (re_match U false re_single _) as [m|] eqn:E3; [|done].
  apply single_leading_digits in E3 as (run & rest & Hs & Hrun & ->).
  destruct (py_int U run) as [z|] eqn:Ez; simpl; [|done].
  intros [= <- <-]. by exists run, rest.
Qed.

(** X2: an interval is returned only for a text that, stripped, starts
    with a run of decimal digits, and its lower bound is the value [int]
    reads from such a run; a text that is blank, or starts with anything
    else, gives [None]. *)
Theorem parse_age_group_needs_leading_number (s : str) :
  (forall lower upper,
     parse_age_group U s = Ok (Some (lower, upper)) ->
     exists run rest,
       strip U s = run ++ rest /\ decimal_run U run /\ py_int U run = Ok lower)
  /\ (strip U s = []
      \/ (exists c rest, strip U s = c :: rest /\ decimal U c = None) ->
      parse_age_group U s = Ok None).
Proof.
  split; [apply parse_age_group_starts_with_number|].
  intros Hs. destruct (parse_age_group_total s) as [[[lower upper]|] H];
    [|done].
  apply parse_age_group_starts_with_number in H
    as (run & rest & E & [Hne Hrun] & _).
  destruct run as [|d run]; [done|]. inversion_clear Hrun as [|? ? [x Hd] _].
  destruct Hs as [Hs|(c & rest' & Hs & Hc)]; rewrite Hs in E; [done|].
  injection E as -> _. congruence.
Qed.

End AgeGroupAnyText.

Lemma parse_age_group_needs_leading_number_witness :
  parse_age_group plain_db (py "Некорректно") = Ok None.
Proof.
  apply (proj2 (parse_age_group_needs_leading_number plain_db (py "Некорректно"))).
  right. eexists _, _. split; reflexivity.
Defined.

(** ** [strip] *)

Section StripFacts.

Context (U : unicode_db).

Lemma lstrip_blanks ws t : blanks U ws -> lstrip U (ws ++ t) = lstrip U t.
Proof. intros H. induction H as [|c ws Hc _ IH]; simpl; [done|]. by rewrite Hc. Qed.

Lemma lstrip_all_blanks ws : blanks U ws -> lstrip U ws = [].
Proof. intros H. rewrite <- (app_nil_r ws). by rewrite lstrip_blanks. Qed.

(** [lstrip] takes a run of blanks off and stops at the first other
    character. *)
Lemma lstrip_split s :
  exists ws, blanks U ws /\ s = ws ++ lstrip U s /\ stops (isspace U) (lstrip U s).
Proof.
  induction s as [|c s (ws & Hws & Hs & Hstop)]; simpl.
  - exists []. split; [constructor | done].
  - destruct (isspace U c) eqn:Hc.
    + exists (c :: ws). split; [by constructor|].
      split; [simpl; by rewrite <- Hs | done].
    + exists []. split; [constructor | done].
Qed.

Lemma lstrip_stops s : stops (isspace U) s -> lstrip U s = s.
Proof. destruct s as [|c s]; simpl; [done|]. by intros ->. Qed.

Lemma lstrip_app s t :
  lstrip U (s ++ t) =
    match lstrip U s with
    | [] => lstrip U t
    | _ => lstrip U s ++ t
    end.
Proof.
  destruct (lstrip_split s) as (ws & Hws & Hs & Hstop).
  rewrite Hs at 1. rewrite <- (assoc_L (++)), lstrip_blanks by done.
  destruct (lstrip U s) as [|c l]; [done|]. simpl in *. by rewrite Hstop.
Qed.

Lemma rstrip_blanks t ws : blanks U ws -> rstrip U (t ++ ws) = rstrip U t.
Proof.
  intros H. unfold rstrip. rewrite rev_app_distr, lstrip_blanks; [done|].
  by apply Forall_rev.
Qed.

(** [rstrip] takes a run of blanks off the end and what is left does not
    end with a blank. *)
Lemma rstrip_split s :
  exists ws, blanks U ws /\ s = rstrip U s ++ ws
    /\ from_option (fun b => isspace U b = false) True (last (rstrip U s)).
Proof.
  unfold rstrip. destruct (lstrip_split (rev s)) as (ws & Hws & Hs & Hstop).
  exists (rev ws). split; [by apply Forall_rev|]. split.
  - rewrite <- rev_app_distr, <- Hs. by rewrite rev_involutive.
  - destruct (lstrip U (rev s)) as [|c l]; [done|]. simpl.
    by rewrite last_snoc.
Qed.

Lemma rstrip_stable s :
  from_option (fun b => isspace U b = false) True (last s) -> rstrip U s = s.
Proof.
  destruct (decide (s = [])) as [->|Hne]; [done|].
  destruct (exists_last Hne) as (s' & b & ->). rewrite last_snoc. simpl.
  apply rstrip_last.
Qed.

(** Blanks around a text do not change its [strip]. *)
Lemma strip_blanks ws s ws' :
  blanks U ws -> blanks U ws' -> strip U (ws ++ s ++ ws') = strip U s.
Proof.
  intros Hws Hws'. unfold strip. rewrite lstrip_blanks, lstrip_app by done.
  destruct (lstrip U s) as [|c l] eqn:E.
  - by rewrite lstrip_all_blanks.
  - by rewrite rstrip_blanks.
Qed.

Lemma rstrip_head s c l :
  rstrip U s = c :: l -> exists t, s = c :: t.
Proof.
  destruct (rstrip_split s) as (ws & _ & Hs & _). intros E.
  rewrite E in Hs. by exists (l ++ ws).
Qed.

Lemma strip_idempotent s : strip U (strip U s) = strip U s.
Proof.
  unfold strip at 1.
  assert (lstrip U (strip U s) = strip U s) as ->.
  { apply lstrip_stops. unfold strip.
    destruct (rstrip U (lstrip U s)) as [|c l] eqn:E; [done|].
    apply rstrip_head in E as [t E].
    destruct (lstrip_split s) as (_ & _ & _ & Hstop). by rewrite E in Hstop. }
  apply rstrip_stable. unfold strip.
  by destruct (rstrip_split (lstrip U s)) as (_ & _ & _ & H).
Qed.


(** X3: blanks before and after the text do not matter to
    [parse_age_group]. *)
Theorem parse_age_group_ignores_blanks (ws s ws' : str) :
  blanks U ws -> blanks U ws' ->
  parse_age_group U (ws ++ s ++ ws') = parse_age_group U s.
Proof.
  intros Hws Hws'. unfold parse_age_group. by rewrite strip_blanks.
Qed.

End StripFacts.

Lemma parse_age_group_ignores_blanks_witness :
  parse_age_group plain_db (py " " ++ py "60 - 64" ++ py " ")
  = parse_age_group plain_db (py "60 - 64").
Proof.
  apply (parse_age_group_ignores_blanks plain_db);
    repeat constructor.
Defined.

(** ** The shapes of text the patterns accept *)

Section AgeGroupShapes.

Context (U : unicode_db).









End AgeGroupShapes.


Section RangeShapes.

Context (U : unicode_db).







End RangeShapes.



(** ** The year-range label as a key *)

Lemma str_of_N_inj n n' : str_of_N n = str_of_N n' -> n = n'.
Proof.
  intros H. pose proof (int_digits_str_of_N plain_db n) as E.
  rewrite H, int_digits_str_of_N in E. by injection E.
Qed.

Lemma str_of_N_head n : exists d ds, str_of_N n = d :: ds /\ ascii_digit d.
Proof.
  pose proof (str_of_N_nonempty n) as Hne. pose proof (str_of_N_ascii n) as Hds.
  destruct (str_of_N n) as [|d ds]; [done|]. inversion_clear Hds.
  by exists d, ds.
Qed.

Lemma str_of_int_inj z z' : str_of_int z = str_of_int z' -> z = z'.
Proof.
  unfold str_of_int.
  destruct (Z.ltb_spec z 0) as [Hz|Hz], (Z.ltb_spec z' 0) as [Hz'|Hz'];
    intros E0.
  - injection E0 as E0. apply str_of_N_inj in E0. lia.
  - destruct (str_of_N_head (Z.to_N z')) as (d & ds & E & [Hd _]).
    rewrite E in E0. injection E0 as <- _. unfold ch_minus in Hd. lia.
  - destruct (str_of_N_head (Z.to_N z)) as (d & ds & E & [Hd _]).
    rewrite E in E0. injection E0 as -> _. unfold ch_minus in Hd. lia.
  - apply str_of_N_inj in E0. lia.
Qed.

Lemma str_of_int_no_comma z : 44%N ∉ str_of_int z.
Proof.
  assert (forall n, 44%N ∉ str_of_N n) as HN.
  { intros n Hin. pose proof (str_of_N_ascii n) as Hall.
    rewrite Forall_forall in Hall. apply Hall in Hin.
    destruct Hin. lia. }
  unfold str_of_int. destruct (z <? 0); [|apply HN].
  rewrite elem_of_cons. intros [?|?]; [done | by eapply HN].
Qed.

(** X6: the label of [calculate_year_range] is a key for the pair of
    years: two calls give the same label only when the two years base_year -
    upper_age and base_year - lower_age are the same; with the same base
    year, only for the same ages. *)
Theorem calculate_year_range_injective
    (lower_age upper_age base_year lower_age' upper_age' base_year' : Z) :
  calculate_year_range lower_age upper_age base_year
  = calculate_year_range lower_age' upper_age' base_year' ->
  base_year - upper_age = base_year' - upper_age'
  /\ base_year - lower_age = base_year' - lower_age'
  /\ (base_year = base_year' -> lower_age = lower_age' /\ upper_age = upper_age').
Proof.
  unfold calculate_year_range. intros H.
  change (py "(") with [40%N] in H. change (py ", ") with [44%N; 32%N] in H.
  change (py ")") with [41%N] in H. simpl in H. injection H as H.
  assert (str_of_int (base_year - upper_age) = str_of_int (base_year' - upper_age'))
    as E1.
  { eapply (before_first_unique 44%N).
    - split; [apply str_of_int_no_comma|]. eexists. split; [reflexivity|].
      right. eexists. reflexivity.
    - split; [apply str_of_int_no_comma|]. eexists. split; [exact H|].
      right. eexists. reflexivity. }
  rewrite E1 in H. apply app_inv_head in H. injection H as H.
  apply app_inv_tail in H. apply str_of_int_inj in E1, H. lia.
Qed.

Lemma calculate_year_range_injective_witness :
  2010 - 4 = 2010 - 4 /\ 2010 - 0 = 2010 - 0
  /\ (2010 = 2010 -> 0 = 0 /\ 4 = 4).
Proof.
  apply (calculate_year_range_injective 0 4 2010 0 4 2010). reflexivity.
Defined.

(** ** Cleaned cells *)

Section CleanFacts.

Context (U : unicode_db).

Lemma strip_split s :
  exists ws ws', blanks U ws /\ blanks U ws' /\ s = ws ++ strip U s ++ ws'.
Proof.
  destruct (lstrip_split U s) as (ws & Hws & Hs & _).
  destruct (rstrip_split U (lstrip U s)) as (ws' & Hws' & Hs' & _).
  exists ws, ws'. split; [done|]. split; [done|].
  unfold strip. by rewrite <- Hs'.
Qed.

Lemma elem_of_strip x s : x ∈ strip U s -> x ∈ s.
Proof.
  destruct (strip_split s) as (ws & ws' & _ & _ & Hs). intros H.
  rewrite Hs, !elem_of_app. auto.
Qed.

Lemma replace_no_newline s : ch_newline ∉ replace ch_newline ch_space s.
Proof.
  unfold replace. intros H. apply list_elem_of_In, in_map_iff in H as (c & Hc & _).
  destruct (N.eqb_spec c ch_newline); [discriminate | congruence].
Qed.

Lemma replace_absent s :
  ch_newline ∉ s -> replace ch_newline ch_space s = s.
Proof.
  unfold replace. induction s as [|c s IH]; simpl; [done|].
  rewrite not_elem_of_cons. intros [Hc Hs].
  destruct (N.eqb_spec c ch_newline); [congruence|]. by rewrite IH.
Qed.

(** What the scanners make of the text of a cell. *)
Lemma clean_text_cleaned s : cleaned U (strip U (replace ch_newline ch_space s)).
Proof.
  split; [|apply strip_idempotent].
  intros H. apply elem_of_strip in H. by apply replace_no_newline in H.
Qed.

(** Cleaning a cleaned text again changes nothing. *)
Lemma cleaned_again s :
  cleaned U s -> strip U (replace ch_newline ch_space s) = s.
Proof. intros [Hn Hs]. by rewrite replace_absent. Qed.

Lemma text_clean_cleaned raw : cleaned U (text (Nationality.clean U raw)).
Proof.
  destruct raw as [s|]; simpl; [apply clean_text_cleaned|].
  split; [apply not_elem_of_nil | done].
Qed.

Lemma columns_cleaned r a b c d :
  columns U r a b c d ->
  cleaned U (text a) /\ cleaned U (text b) /\ cleaned U (text c) /\ cleaned U (text d).
Proof.
  intros [more E].
  destruct r as [|ra [|rb [|rc [|rd r']]]]; try discriminate.
  injection E as <- <- <- <- _. repeat split; apply text_clean_cleaned.
Qed.

Lemma columns_length r a b c d : columns U r a b c d -> (4 <= length r)%nat.
Proof.
  intros [more E]. apply (f_equal length) in E.
  rewrite length_fmap in E. simpl in E. lia.
Qed.

Lemma short_no_columns r :
  (forall a b c d, ¬ columns U r a b c d) -> (length r < 4)%nat.
Proof.
  intros H. destruct r as [|ra [|rb [|rc [|rd r']]]]; simpl; try lia.
  destruct (H (Nationality.clean U ra) (Nationality.clean U rb)
              (Nationality.clean U rc) (Nationality.clean U rd)).
  by eexists.
Qed.

End CleanFacts.

(** ** Invariants of the nationality scanner *)

Section NationalityInvariants.

Import Nationality.

Context (U : unicode_db).

(* The literals stay folded while the tactics compare terms. *)
#[local] Opaque py.

Lemma potential_nationality_facts cr col_a col_c col_d :
  is_potential_nationality U cr col_a col_c col_d = true ->
  truthy cr = true /\ truthy col_c = true
  /\ str_isdigit U (text col_d) = true
  /\ lower U (text col_c) ∉ stoplist.
Proof.
  unfold is_potential_nationality. rewrite !andb_true_iff, bool_decide_eq_true.
  intros [[[[[[? ?] ?] ?] ?] ?] ?]. done.
Qed.

Lemma potential_region_facts col_a col_b col_c col_d :
  is_potential_region U col_a col_b col_c col_d = true ->
  str_isdigit U (text col_d) = true
  /\ (3 < length (text col_c))%nat
  /\ ¬ has_phrase federal_district_phrase (lower U (text col_c))
  /\ ¬ has_phrase nation_marker_phrase (lower U (text col_c)).
Proof.
  intros H. apply potential_region_iff in H
    as (_ & _ & (c & -> & Hlen & Hfo & Hm) & (d & -> & Hd)).
  simpl. split; [by apply str_isdigit_true|].
  exact (conj Hlen (conj Hfo Hm)).
Qed.

Lemma truthy_text o : truthy o = true -> text o ≠ [] /\ o = Some (text o).
Proof. destruct o as [[|c s]|]; try discriminate. done. Qed.

Lemma process_row_invariant v r v' :
  process_row U v r = Ok v' ->
  nationality_invariant v -> nationality_invariant v'.
Proof.
  destruct (columns_or_short U r) as [(a & b & c & d & Hc)|Hshort];
    [|by rewrite process_row_short].
  rewrite (process_row_columns U v r a b c d Hc).
  destruct (columns_cleaned U r a b c d Hc) as (_ & _ & Hcc & _).
  destruct (is_federal_district_row U b c); [by intros [= <-]|].
  unfold nationality_invariant. destruct (state v) eqn:Est.
  - by intros [= <-]; rewrite Est.
  - destruct (is_potential_region U a b c d) eqn:Ep;
      [|by intros [= <-]; rewrite Est].
    apply potential_region_facts in Ep as (_ & Hlen & _).
    unfold region_found. rewrite (cleaned_again U _ Hcc).
    destruct (data v !! text c) eqn:El; [by intros [= <-]; rewrite Est|].
    destruct (py_int U (text d)) as [total|]; simpl; [|done].
    intros [= <-] _. simpl. exists (text c), total.
    split; [done|].
    split; [destruct (text c); [simpl in Hlen; lia | done]|]. split; [done|].
    apply lookup_insert_eq.
  - destruct (_ && _); [|by intros [= <-]; rewrite Est].
    intros [= <-] (region & total & ? & ? & ? & ?). simpl.
    by exists region, total, ∅.
  - destruct (is_potential_nationality U _ a c d).
    + unfold nation_found.
      destruct (py_int U (text d)) as [pop|]; simpl; [|done].
      case_bool_decide; [|by intros [= <-]; rewrite Est].
      intros Hrow (region & total & nations & Hcr & Hne & Ht & Hl).
      rewrite Hcr, Hl in Hrow. injection Hrow as <-. simpl. rewrite Est.
      eexists region, total, _. rewrite lookup_insert_eq. done.
    + destruct (_ && _); intros [= <-]; [done | by rewrite Est].
Qed.

Lemma process_row_well_formed v r v' :
  process_row U v r = Ok v' ->
  well_formed_regions U (data v) -> well_formed_regions U (data v').
Proof.
  destruct (columns_or_short U r) as [(a & b & c & d & Hc)|Hshort];
    [|by rewrite process_row_short].
  rewrite (process_row_columns U v r a b c d Hc).
  destruct (columns_cleaned U r a b c d Hc) as (_ & _ & Hcc & _).
  destruct (is_federal_district_row U b c); [by intros [= <-]|].
  destruct (state v).
  - by intros [= <-].
  - destruct (is_potential_region U a b c d) eqn:Ep; [|by intros [= <-]].
    apply potential_region_facts in Ep as (_ & Hlen & Hfo & Hm).
    unfold region_found. rewrite (cleaned_again U _ Hcc).
    destruct (data v !! text c) eqn:El; [by intros [= <-]|].
    destruct (py_int U (text d)) as [total|] eqn:Ei; simpl; [|done].
    intros [= <-] Hwf region t ns. simpl. rewrite lookup_insert. case_decide.
    + intros [= <- <-]. subst region. split.
      * apply py_int_nonneg in Ei.
        exact (conj Hcc (conj Hlen (conj Ei (conj Hfo Hm)))).
      * intros nation pop. by rewrite lookup_empty.
    + apply Hwf.
  - destruct (_ && _); by intros [= <-].
  - destruct (is_potential_nationality U _ a c d) eqn:Ep.
    + apply potential_nationality_facts in Ep as (_ & Htc & _ & Hstop).
      apply truthy_text in Htc as [Hne _].
      unfold nation_found. rewrite (cleaned_again U _ Hcc).
      destruct (py_int U (text d)) as [pop|]; simpl; [|done].
      case_bool_decide; [|by intros [= <-]].
      destruct (current_region v) as [region|]; [|by intros [= <-]].
      destruct (data v !! region) as [[total nations]|] eqn:El; [|by intros [= <-]].
      intros [= <-] Hwf region' t ns. simpl. rewrite lookup_insert. case_decide.
      * intros [= <- <-]. subst region'.
        destruct (Hwf region total nations El) as [Hr Hn]. split; [exact Hr|].
        intros nation p. rewrite lookup_insert. case_decide; [|apply Hn].
        intros _. subst nation. exact (conj Hcc (conj Hne Hstop)).
      * apply Hwf.
    + destruct (_ && _); by intros [= <-].
Qed.

Lemma regions_kept_refl d : regions_kept d d.
Proof. intros region total nations H. by exists nations. Qed.

Lemma regions_kept_trans d1 d2 d3 :
  regions_kept d1 d2 -> regions_kept d2 d3 -> regions_kept d1 d3.
Proof.
  intros H12 H23 region total nations H.
  destruct (H12 _ _ _ H) as (ns2 & H2 & Hsub2).
  destruct (H23 _ _ _ H2) as (ns3 & H3 & Hsub3).
  exists ns3. split; [done|]. auto.
Qed.

Lemma process_row_keeps v r v' :
  process_row U v r = Ok v' -> regions_kept (data v) (data v').
Proof.
  destruct (columns_or_short U r) as [(a & b & c & d & Hc)|Hshort];
    [|by rewrite process_row_short].
  rewrite (process_row_columns U v r a b c d Hc).
  destruct (is_federal_district_row U b c);
    [intros [= <-]; apply regions_kept_refl|].
  destruct (state v).
  - intros [= <-]. apply regions_kept_refl.
  - destruct (is_potential_region U a b c d);
      [|intros [= <-]; apply regions_kept_refl].
    unfold region_found.
    destruct (data v !! _) eqn:El; [intros [= <-]; apply regions_kept_refl|].
    destruct (py_int U (text d)) as [total|]; simpl; [|done].
    intros [= <-] region t ns H. simpl. exists ns.
    rewrite lookup_insert_ne; [done | congruence].
  - destruct (_ && _); intros [= <-]; apply regions_kept_refl.
  - destruct (is_potential_nationality U _ a c d).
    + unfold nation_found.
      destruct (py_int U (text d)) as [pop|]; simpl; [|done].
      case_bool_decide; [|intros [= <-]; apply regions_kept_refl].
      destruct (current_region v) as [region|];
        [|intros [= <-]; apply regions_kept_refl].
      destruct (data v !! region) as [[total nations]|] eqn:El;
        [|intros [= <-]; apply regions_kept_refl].
      intros [= <-] region' t ns Hreg. simpl. rewrite lookup_insert. case_decide.
      * subst region'. rewrite El in Hreg. injection Hreg as <- <-.
        eexists. split; [done|]. intros nation Hn.
        rewrite lookup_insert. by case_decide.
      * by exists ns.
    + destruct (_ && _); intros [= <-]; apply regions_kept_refl.
Qed.

Lemma iterrows_induction (P : vars -> Prop) v df v' :
  (forall v r v', process_row U v r = Ok v' -> P v -> P v') ->
  iterrows U v df = Ok v' -> P v -> P v'.
Proof.
  intros Hstep. revert v. induction df as [|r df IH]; intros v; simpl.
  - by intros [= <-].
  - destruct (process_row U v r) as [v1|] eqn:E; simpl; [|done].
    intros H Hv. apply (IH v1 H). by apply (Hstep v r).
Qed.

Lemma iterrows_keeps v df v' :
  iterrows U v df = Ok v' -> regions_kept (data v) (data v').
Proof.
  revert v. induction df as [|r df IH]; intros v; simpl.
  - intros [= <-]. apply regions_kept_refl.
  - destruct (process_row U v r) as [v1|] eqn:E; simpl; [|done].
    intros H. eapply regions_kept_trans; [by eapply process_row_keeps | by apply IH].
Qed.

End NationalityInvariants.

(** ** Further properties of the nationality scanner *)

Section NationalityMore.

Import Nationality.

Context (U : unicode_db).

(* The literals stay folded while the tactics compare terms. *)
#[local] Opaque py.

(** X7: between any two rows of a scan the variables are consistent (see
    [nationality_invariant]); so a nation row with a positive count, met
    while nations are read, is always stored: the current region is a key of
    the map and the row's name and count go under it. The branch of the
    source that reports a current region missing from the map is never
    taken. *)
Theorem current_region_is_registered (df : list row) (v : vars) :
  iterrows U initial df = Ok v ->
  nationality_invariant v
  /\ (forall r col_a col_b col_c col_d pop,
        columns U r col_a col_b col_c col_d ->
        state v = STATE_READING_NATIONS ->
        is_federal_district_row U col_b col_c = false ->
        is_potential_nationality U (current_region v) col_a col_c col_d = true ->
        py_int U (text col_d) = Ok pop -> 0 < pop ->
        exists region total nations v',
          current_region v = Some region
          /\ data v !! region = Some (total, nations)
          /\ process_row U v r = Ok v'
          /\ data v' = <[region := (total, <[text col_c := pop]> nations)]> (data v)).
Proof.
  intros Hrun.
  assert (nationality_invariant v) as Hinv.
  { apply (iterrows_induction U nationality_invariant initial df v);
      [apply process_row_invariant | done | done]. }
  split; [done|].
  intros r a b c d pop Hc Hst Hfo Hp Hpop Hpos.
  unfold nationality_invariant in Hinv. rewrite Hst in Hinv.
  destruct Hinv as (region & total & nations & Hcr & _ & _ & Hl).
  destruct (columns_cleaned U r a b c d Hc) as (_ & _ & Hcc & _).
  rewrite (process_row_columns U v r a b c d Hc), Hfo, Hst, Hp.
  unfold nation_found. rewrite Hpop, (cleaned_again U _ Hcc). simpl.
  rewrite bool_decide_eq_true_2 by lia. rewrite Hcr, Hl.
  by eexists region, total, nations, _.
Qed.

Lemma read_nationality_data_well_formed file :
  well_formed_regions U (read_nationality_data U file).
Proof.
  assert (well_formed_regions U ∅) as Hempty.
  { intros region total nations. by rewrite lookup_empty. }
  destruct file as [| |df]; simpl; try done.
  destruct (iterrows U initial df) as [v|] eqn:E; [|done].
  apply (iterrows_induction U (fun v => well_formed_regions U (data v)) initial df v);
    [apply process_row_well_formed | done | done].
Qed.

(** X8: in the map the scanner returns, every region name is a cleaned
    text (no newline, no blank at either end) of more than 3 characters
    that has, in lower case, neither the federal-district phrase nor the
    nation-marker phrase, and every total is zero or more. *)
Theorem region_entries_well_formed (file : excel) (region : str) (total : Z)
    (nations : gmap str Z) :
  read_nationality_data U file !! region = Some (total, nations) ->
  cleaned U region /\ (3 < length region)%nat /\ 0 <= total
  /\ ¬ has_phrase federal_district_phrase (lower U region)
  /\ ¬ has_phrase nation_marker_phrase (lower U region).
Proof. intros H. by apply (read_nationality_data_well_formed file) in H as [? _]. Qed.

(** X9: in the map the scanner returns, every nation name is a cleaned
    text, not empty, that is, in lower case, none of the boilerplate texts
    of the stoplist ("итого", "национальность не указана", ...). *)
Theorem nation_names_well_formed (file : excel) (region : str) (total : Z)
    (nations : gmap str Z) (nation : str) (pop : Z) :
  read_nationality_data U file !! region = Some (total, nations) ->
  nations !! nation = Some pop ->
  cleaned U nation /\ nation ≠ [] /\ lower U nation ∉ stoplist.
Proof.
  intros H Hn. apply (read_nationality_data_well_formed file) in H as [_ H].
  by apply (H nation pop).
Qed.

(** X10: the first occurrence of a region wins for the whole scan. What
    the scanner has stored after some rows is still there after the rows
    that follow: every region with the same total, and every nation it had
    (whose count a later row of the same name may replace). *)
Theorem registered_regions_are_kept (pre post : list row) (v v' : vars) :
  iterrows U initial pre = Ok v ->
  iterrows U v post = Ok v' ->
  read_nationality_data U (DataFrame (pre ++ post)) = data v'
  /\ regions_kept (data v) (data v').
Proof.
  intros Hpre Hpost. split; [|by eapply iterrows_keeps].
  unfold read_nationality_data. rewrite iterrows_app, Hpre. simpl.
  by rewrite Hpost.
Qed.

Lemma process_row_no_marker v r v' :
  ¬ nation_marker_row U r ->
  process_row U v r = Ok v' ->
  state v ≠ STATE_READING_NATIONS
  /\ (forall region total nations,
        data v !! region = Some (total, nations) -> nations = ∅) ->
  state v' ≠ STATE_READING_NATIONS
  /\ (forall region total nations,
        data v' !! region = Some (total, nations) -> nations = ∅).
Proof.
  intros Hm.
  destruct (columns_or_short U r) as [(a & b & c & d & Hc)|Hshort];
    [|by rewrite process_row_short].
  rewrite (process_row_columns U v r a b c d Hc).
  destruct (is_federal_district_row U b c); [intros [= <-] [? ?]; by split|].
  destruct (state v) eqn:Est.
  - by intros [= <-]; rewrite Est.
  - destruct (is_potential_region U a b c d); [|by intros [= <-]; rewrite Est].
    unfold region_found.
    destruct (data v !! _) eqn:El; [by intros [= <-]; rewrite Est|].
    destruct (py_int U (text d)) as [total|]; simpl; [|done].
    intros [= <-] [_ Hd]. simpl. split; [done|].
    intros region t ns. rewrite lookup_insert. case_decide.
    + by intros [= <- <-].
    + apply Hd.
  - destruct (contains nation_marker_phrase (lower U (text c))) eqn:Ec.
    + destruct Hm. exists a, b, c, d. split; [done|]. by apply contains_true.
    + rewrite andb_false_r. by intros [= <-]; rewrite Est.
  - by intros _ [? _].
Qed.

(** X11: without a marker row no nation is read. If no row of the sheet
    has the nation-marker phrase in column C, every region of the result has
    an empty nation map, whatever nation rows follow it. *)
Theorem no_marker_no_nations (df : list row) (region : str) (total : Z)
    (nations : gmap str Z) :
  Forall (fun r => ¬ nation_marker_row U r) df ->
  read_nationality_data U (DataFrame df) !! region = Some (total, nations) ->
  nations = ∅.
Proof.
  intros Hdf. unfold read_nationality_data.
  destruct (iterrows U initial df) as [v|] eqn:E; [|by rewrite lookup_empty].
  assert (forall v0,
            iterrows U v0 df = Ok v ->
            state v0 ≠ STATE_READING_NATIONS
            /\ (forall region total nations,
                  data v0 !! region = Some (total, nations) -> nations = ∅) ->
            state v ≠ STATE_READING_NATIONS
            /\ (forall region total nations,
                  data v !! region = Some (total, nations) -> nations = ∅)) as H.
  { clear E. induction Hdf as [|r df Hr _ IH]; intros v0; simpl.
    - by intros [= <-].
    - destruct (process_row U v0 r) as [v1|] eqn:E1; simpl; [|done].
      intros H Hv0. apply (IH v1 H). by apply (process_row_no_marker v0 r). }
  destruct (H initial E) as [_ Hd].
  - split; [done|]. intros ? ? ?. unfold initial. simpl.
    by rewrite lookup_empty.
  - apply Hd.
Qed.

Lemma py_int_raises s e : py_int U s = Raise e -> e = ValueError.
Proof.
  unfold py_int. destruct s as [|c s]; [by intros [= <-]|].
  generalize (c :: s) 0%N. intros l acc.
  destruct (int_digits U l acc) eqn:E; simpl; [done|]. intros [= <-].
  revert acc E. induction l as [|x l IH]; intros acc; simpl; [done|].
  destruct (decimal U x); [apply IH | by intros [= <-]].
Qed.

Lemma process_row_raises v r e :
  process_row U v r = Raise e -> nationality_failure U r e.
Proof.
  destruct (columns_or_short U r) as [(a & b & c & d & Hc)|Hshort].
  - rewrite (process_row_columns U v r a b c d Hc).
    destruct (is_federal_district_row U b c); [done|].
    destruct (state v); [done| | |].
    + destruct (is_potential_region U a b c d) eqn:Ep; [|done].
      apply potential_region_facts in Ep as (Hd & _).
      unfold region_found. destruct (data v !! _); [done|].
      destruct (py_int U (text d)) eqn:Ei; simpl; [done|]. intros [= <-].
      right. pose proof (py_int_raises _ _ Ei) as ->.
      split; [done|]. by exists a, b, c, d.
    + by destruct (_ && _).
    + destruct (is_potential_nationality U _ a c d) eqn:Ep.
      * apply potential_nationality_facts in Ep as (_ & _ & Hd & _).
        unfold nation_found.
        destruct (py_int U (text d)) eqn:Ei; simpl.
        { case_bool_decide; [|done].
          destruct (current_region v); [|done]. by destruct (data v !! _) as [[? ?]|]. }
        intros [= <-]. right. pose proof (py_int_raises _ _ Ei) as ->.
        split; [done|]. by exists a, b, c, d.
      * by destruct (_ && _).
  - rewrite process_row_short by done. intros [= <-]. left.
    split; [done|]. by apply (short_no_columns U).
Qed.

Lemma iterrows_raises v df e :
  iterrows U v df = Raise e ->
  exists r, r ∈ df /\ nationality_failure U r e.
Proof.
  revert v. induction df as [|r df IH]; intros v; simpl; [done|].
  destruct (process_row U v r) as [v1|e1] eqn:E; simpl.
  - intros H. destruct (IH v1 H) as (r' & Hin & Hf).
    exists r'. split; [by apply list_elem_of_further | done].
  - intros [= <-]. exists r. split; [apply list_elem_of_here|].
    by eapply process_row_raises.
Qed.

(** X12: the loop of the nationality scanner raises for two reasons only:
    a row with fewer than four cells ([IndexError]), or a row it takes for a
    region or nation row whose column D passes [str.isdigit] and is refused
    by [int] ([ValueError]: a digit that is no decimal digit, such as a
    superscript; the interpreter's limit on the number of digits is left
    out). *)
Theorem nationality_loop_raises (v : vars) (df : list row) (e : exn) :
  iterrows U v df = Raise e ->
  exists r, r ∈ df /\ nationality_failure U r e.
Proof. apply iterrows_raises. Qed.

(** X13: one row with fewer than four cells anywhere in the sheet and the
    result is the empty map. *)
Theorem short_row_empties_result (df : list row) (r : row) :
  r ∈ df -> (length r < 4)%nat ->
  read_nationality_data U (DataFrame df) = ∅.
Proof.
  intros Hin Hlen. unfold read_nationality_data.
  destruct (iterrows U initial df) as [v|] eqn:E; [|done]. exfalso.
  revert E. generalize initial. induction df as [|r' df IH]; intros v0; simpl.
  - by apply elem_of_nil in Hin.
  - destruct (process_row U v0 r') as [v1|] eqn:E1; simpl; [|done].
    apply elem_of_cons in Hin as [<-|Hin]; [|by apply IH].
    rewrite process_row_short in E1; [done|].
    intros a b c d Hc. apply columns_length in Hc. lia.
Qed.




End NationalityMore.

(** The rows of the scenario as far as the marker row: the scanner is
    reading the nations of "Sample Region". *)
Lemma current_region_is_registered_witness :
  exists v,
    Nationality.iterrows plain_db Nationality.initial
      (take 3 (sample_sheet fo_row_ru marker_ru)) = Ok v
    /\ nationality_invariant v.
Proof.
  eexists. split; [vm_compute; reflexivity|].
  apply (current_region_is_registered plain_db (take 3 (sample_sheet fo_row_ru marker_ru))).
  vm_compute. reflexivity.
Defined.

Lemma region_entries_well_formed_witness :
  cleaned plain_db (py "Sample Region") /\ (3 < length (py "Sample Region"))%nat.
Proof.
  destruct (region_entries_well_formed plain_db
              (DataFrame (sample_sheet fo_row_ru marker_ru))
              (py "Sample Region") 1000 {[ py "Russians" := 800 ]})
    as (Hclean & Hlen & _).
  - vm_compute. reflexivity.
  - exact (conj Hclean Hlen).
Defined.

Lemma nation_names_well_formed_witness :
  cleaned plain_db (py "Russians") /\ py "Russians" ≠ [].
Proof.
  destruct (nation_names_well_formed plain_db
              (DataFrame (sample_sheet fo_row_ru marker_ru))
              (py "Sample Region") 1000 {[ py "Russians" := 800 ]}
              (py "Russians") 800)
    as (Hclean & Hne & _).
  - vm_compute. reflexivity.
  - vm_compute. reflexivity.
  - exact (conj Hclean Hne).
Defined.

(** After the sheet of the scenario, a second row for "Sample Region": the
    entry of the first one stays. *)
Lemma registered_regions_are_kept_witness :
  Nationality.read_nationality_data plain_db
    (DataFrame (sample_sheet fo_row_ru marker_ru
                ++ [[Some (py "7."); None; Some (py "Sample Region"); Some (py "55")]]))
  = Nationality.data after_sample_region
  /\ regions_kept (Nationality.data after_sample_region)
       (Nationality.data after_sample_region).
Proof.
  apply (registered_regions_are_kept plain_db
           (sample_sheet fo_row_ru marker_ru)
           [[Some (py "7."); None; Some (py "Sample Region"); Some (py "55")]]
           after_sample_region after_sample_region).
  - vm_compute. reflexivity.
  - vm_compute. reflexivity.
Defined.

(** A region row and a nation row with no marker row between them: the
    nation is not read. *)
Lemma no_marker_no_nations_witness :
  Nationality.read_nationality_data plain_db (DataFrame unmarked_sheet)
    !! py "Sample Region" = Some (1000, ∅)
  /\ (∅ : gmap str Z) = ∅.
Proof.
  assert (Nationality.read_nationality_data plain_db (DataFrame unmarked_sheet)
            !! py "Sample Region" = Some (1000, ∅)) as Hread.
  { vm_compute. reflexivity. }
  split; [exact Hread|].
  apply (no_marker_no_nations plain_db unmarked_sheet (py "Sample Region") 1000 ∅);
    [|exact Hread].
  unfold unmarked_sheet.
  repeat (apply Forall_cons; split;
          [intros (a & b & c & d & [more E] & H); injection E as <- <- <- <- _;
           apply contains_true in H; vm_compute in H; discriminate H|]).
  by apply Forall_nil.
Defined.

Lemma nationality_loop_raises_witness :
  exists r, r ∈ [short_row] /\ nationality_failure plain_db r IndexError.
Proof.
  apply (nationality_loop_raises plain_db Nationality.initial [short_row] IndexError).
  reflexivity.
Defined.

Lemma short_row_empties_result_witness :
  Nationality.read_nationality_data plain_db
    (DataFrame (sample_sheet fo_row_ru marker_ru ++ [short_row])) = ∅.
Proof.
  apply (short_row_empties_result plain_db _ short_row).
  - apply elem_of_app. right. apply list_elem_of_here.
  - simpl. lia.
Defined.


(** ** Further properties of the age/sex scanner *)

Section AgeSexMore.

Import AgeSex.

Context (U : unicode_db).

(* The literals stay folded while the tactics compare terms. *)
#[local] Opaque py.

Lemma text_clean_cleaned_age raw : cleaned U (text (clean U raw)).
Proof. apply (text_clean_cleaned U raw). Qed.



Lemma region_candidate_facts candidate :
  is_region_candidate U candidate = Ok true ->
  text candidate ≠ []
  /\ (5 < length (text candidate))%nat
  /\ parse_age_group U (text candidate) = Ok None
  /\ ¬ has_phrase including_phrase (lower U (text candidate))
  /\ ¬ has_phrase age_phrase (lower U (text candidate)).
Proof.
  unfold is_region_candidate.
  destruct (truthy candidate) eqn:Ht; [|done].
  apply truthy_text in Ht as [Hne _].
  destruct (index _ 0) as [first|]; simpl; [|done].
  destruct (negb (existsb (isdigit U) first)); simpl; [|done].
  destruct (contains including_phrase _) eqn:E1; simpl; [done|].
  destruct (contains age_phrase _) eqn:E2; simpl; [done|].
  destruct (parse_age_group U (text candidate)) as [bounds|]; simpl; [|done].
  intros [= H]. apply andb_true_iff in H as [Hb Hlen].
  apply bool_decide_eq_true in Hlen. apply negb_true_iff in Hb.
  apply bool_decide_eq_false in Hb.
  split; [done|]. split; [done|]. split.
  - destruct bounds; [|done]. destruct Hb. by eexists.
  - rewrite <- !contains_true, E1, E2. done.
Qed.




Lemma read_ages_well_formed v region row_values v' :
  Forall (fun cell => cleaned U (text cell)) row_values ->
  read_ages U v region row_values = Ok v' ->
  well_formed_ages U (data v) -> well_formed_ages U (data v').
Proof.
  intros Hrow. unfold read_ages.
  destruct (index row_values 3) as [age|] eqn:Ea; simpl; [|done].
  destruct (index row_values 8) as [male|]; simpl; [|done].
  destruct (index row_values 9) as [female|]; simpl; [|done].
  destruct (_ && _).
  - destruct (parse_age_group U (text age)) as [bounds|] eqn:Ep; simpl; [|done].
    case_bool_decide as Hb; [|by intros [= <-]].
    destruct (py_int U (text male)) as [males|] eqn:Em; simpl; [|done].
    destruct (py_int U (text female)) as [females|] eqn:Ef; simpl; [|done].
    destruct (data v !! region) as [ages|] eqn:E; [|done].
    intros [= <-] Hwf region' ages'. simpl. rewrite lookup_insert. case_decide.
    + intros [= <-]. subst region'. destruct (Hwf region ages E) as [Hr Ha].
      split; [done|]. intros label m f. rewrite lookup_insert. case_decide.
      * intros [= <- <-]. subst label. split.
        { apply index_Ok in Ea. rewrite Forall_forall in Hrow.
          by apply (Hrow age), list_elem_of_lookup_2 with 3%nat. }
        split.
        { destruct Hb as [[lo up] ->]. by exists lo, up. }
        apply py_int_nonneg in Em, Ef. done.
      * apply Ha.
    + apply Hwf.
  - destruct (_ && _); [|by intros [= <-]].
    destruct (data v !! region) as [ages|]; [|done].
    case_bool_decide; by intros [= <-].
Qed.

Lemma clean_row_cleaned r : Forall (fun cell => cleaned U (text cell)) (clean U <$> r).
Proof.
  apply Forall_fmap, Forall_forall. intros raw _. apply text_clean_cleaned_age.
Qed.

Lemma process_row_well_formed_age v r next v' :
  process_row U v r next = Ok v' ->
  well_formed_ages U (data v) -> well_formed_ages U (data v').
Proof.
  unfold process_row.
  destruct (index (clean U <$> r) 3) as [candidate|] eqn:Ec; simpl; [|done].
  assert (forall v0,
            (if reading_ages v && truthy (current_region v)
             then read_ages U v (text (current_region v)) (clean U <$> r)
             else Ok v) = Ok v0 ->
            well_formed_ages U (data v) -> well_formed_ages U (data v0)) as Hrest.
  { intros v0. destruct (_ && _); [|by intros [= <-]].
    apply read_ages_well_formed, clean_row_cleaned. }
  destruct (is_region_candidate U candidate) as [[|]|] eqn:Ei; simpl;
    [| apply Hrest | done].
  destruct (next_row_confirms U next) as [[|]|]; simpl; [| apply Hrest | done].
  intros [= <-] Hwf region ages. simpl.
  apply region_candidate_facts in Ei as (Hne & Hlen & Hp & Hi & Ha).
  apply index_Ok in Ec.
  assert (cleaned U (text candidate)) as Hcl.
  { apply list_lookup_fmap_Some in Ec as (raw & -> & _). apply text_clean_cleaned_age. }
  rewrite (cleaned_again U _ Hcl), lookup_insert. case_decide.
  - intros [= <-]. subst region. split; [done|].
    intros label m f. by rewrite lookup_empty.
  - apply Hwf.
Qed.

Lemma iterrows_induction_age (P : vars -> Prop) v df v' :
  (forall v r next v', process_row U v r next = Ok v' -> P v -> P v') ->
  iterrows U v df = Ok v' -> P v -> P v'.
Proof.
  intros Hstep. revert v. induction df as [|r df IH]; intros v; simpl.
  - by intros [= <-].
  - destruct (process_row U v r (head df)) as [v1|] eqn:E; simpl; [|done].
    intros H Hv. apply (IH v1 H). by apply (Hstep v r (head df)).
Qed.

Lemma read_age_sex_data_well_formed file :
  well_formed_ages U (read_age_sex_data U file).
Proof.
  assert (well_formed_ages U ∅) as Hempty.
  { intros region ages. by rewrite lookup_empty. }
  destruct file as [| |df]; simpl; try done.
  destruct (iterrows U initial df) as [v|] eqn:E; [|done].
  apply (iterrows_induction_age (fun v => well_formed_ages U (data v)) initial df v);
    [apply process_row_well_formed_age | done | done].
Qed.

(** X15: every age label the age/sex scanner stores is one that
    [parse_age_group] reads as an interval, so whoever takes the labels of
    the result to [parse_age_group] again never gets [None]; the label is
    the cleaned text of the cell and the two counts are zero or more. *)
Theorem stored_age_labels_parse (file : excel) (region : str)
    (ages : gmap str (Z * Z)) (label : str) (males females : Z) :
  read_age_sex_data U file !! region = Some ages ->
  ages !! label = Some (males, females) ->
  (exists lower upper, parse_age_group U label = Ok (Some (lower, upper)))
  /\ cleaned U label /\ 0 <= males /\ 0 <= females.
Proof.
  intros H Ha. apply (read_age_sex_data_well_formed file) in H as [_ H].
  destruct (H label males females Ha) as (Hcl & Hp & Hm & Hf). done.
Qed.

(** X16: every region name in the result of the age/sex scanner is a
    cleaned text of more than 5 characters that [parse_age_group] does not
    read as an age group and that has, in lower case, neither "в том числе"
    nor "возрасте". *)
Theorem age_sex_region_names (file : excel) (region : str)
    (ages : gmap str (Z * Z)) :
  read_age_sex_data U file !! region = Some ages ->
  cleaned U region /\ (5 < length region)%nat
  /\ parse_age_group U region = Ok None
  /\ ¬ has_phrase including_phrase (lower U region)
  /\ ¬ has_phrase age_phrase (lower U region).
Proof. intros H. by apply (read_age_sex_data_well_formed file) in H as [? _]. Qed.







(** X19: a confirmed region header always registers its region, and with
    an empty map of ages: unlike the nationality scanner, the age/sex
    scanner lets the last occurrence of a region win, and what an earlier
    occurrence had stored for it is lost. The other regions stay as they
    are. *)
Theorem repeated_header_resets_ages (v : vars) (r : row) (next : option row)
    (region : str) :
  confirmed_header U r next region ->
  exists v',
    process_row U v r next = Ok v'
    /\ data v' !! region = Some ∅
    /\ (forall other, other ≠ region -> data v' !! other = data v !! other)
    /\ current_region v' = Some region /\ reading_ages v' = true.
Proof.
  intros (next_row & candidate & cell & -> & Hc & Hi & Hcell & Ht & Hp & ->).
  unfold process_row, next_row_confirms.
  apply index_Ok in Hc, Hcell. rewrite Hc. simpl. rewrite Hi. simpl.
  rewrite Hcell. simpl. apply contains_true in Hp. rewrite Ht, Hp. simpl.
  eexists. split; [reflexivity|]. simpl.
  split; [apply lookup_insert_eq|]. split; [|done].
  intros other Hne. by apply lookup_insert_ne.
Qed.

End AgeSexMore.

Lemma stored_age_labels_parse_witness :
  (exists lower upper, parse_age_group plain_db (py "0 - 4") = Ok (Some (lower, upper)))
  /\ cleaned plain_db (py "0 - 4") /\ 0 <= 120 /\ 0 <= 130.
Proof.
  apply (stored_age_labels_parse plain_db (DataFrame age_sheet)
           (py "Белгородская область") {[ py "0 - 4" := (120, 130) ]}).
  - vm_compute. reflexivity.
  - vm_compute. reflexivity.
Defined.

Lemma age_sex_region_names_witness :
  cleaned plain_db (py "Белгородская область")
  /\ (5 < length (py "Белгородская область"))%nat.
Proof.
  destruct (age_sex_region_names plain_db (DataFrame age_sheet)
              (py "Белгородская область") {[ py "0 - 4" := (120, 130) ]})
    as (Hclean & Hlen & _).
  - vm_compute. reflexivity.
  - exact (conj Hclean Hlen).
Defined.



(** The header of the sheet of the scenario, met again once its ages are
    stored. *)
Lemma repeated_header_resets_ages_witness :
  AgeSex.iterrows plain_db AgeSex.initial age_sheet = Ok after_age_sheet
  /\ exists v',
    AgeSex.process_row plain_db after_age_sheet
      (age_row (Some (py "Белгородская область")) None None)
      (Some (age_row (Some (py "Городское и сельское население")) None None))
    = Ok v'
    /\ AgeSex.data after_age_sheet !! py "Белгородская область"
       = Some {[ py "0 - 4" := (120, 130) ]}
    /\ AgeSex.data v' !! py "Белгородская область" = Some ∅.
Proof.
  destruct (repeated_header_resets_ages plain_db after_age_sheet
              (age_row (Some (py "Белгородская область")) None None)
              (Some (age_row (Some (py "Городское и сельское население")) None None))
              (py "Белгородская область"))
    as (v' & Hrow & Hreset & _).
  - eexists _, _, _. split; [reflexivity|]. split; [reflexivity|].
    split; [reflexivity|]. split; [reflexivity|]. split; [reflexivity|].
    split; [|vm_compute; reflexivity].
    apply contains_true. vm_compute. reflexivity.
  - split; [vm_compute; reflexivity|].
    exists v'. split; [exact Hrow|]. split; [|exact Hreset].
    vm_compute. reflexivity.
Defined.

(** ** The parser's region names as territory names *)

(** X20: the region names of the two scanners are clean already. The
    name [get_or_insert_territory] looks up, after its own [strip], is the
    key of the scanner's map as it is, so that one region of a sheet is one
    territory. *)
Theorem territory_names_already_clean (U : unicode_db) (region : str) :
  (exists file, is_Some (Nationality.read_nationality_data U file !! region))
  \/ (exists file, is_Some (AgeSex.read_age_sex_data U file !! region)) ->
  territory_name_cleaned U (Some region) = Some region.
Proof.
  intros H.
  assert (cleaned U region /\ region ≠ []) as [[_ Hstrip] Hne].
  { destruct H as [[file [[total nations] H]]|[file [ages H]]].
    - apply (read_nationality_data_well_formed U file) in H as [(Hc & Hlen & _) _].
      split; [exact Hc|]. intros ->. simpl in Hlen. lia.
    - apply (read_age_sex_data_well_formed U file) in H as [(Hc & Hlen & _) _].
      split; [exact Hc|]. intros ->. simpl in Hlen. lia. }
  unfold territory_name_cleaned. destruct region as [|c region]; [done|].
  simpl. by rewrite Hstrip.
Qed.

Lemma territory_names_already_clean_witness :
  territory_name_cleaned plain_db (Some (py "Sample Region"))
  = Some (py "Sample Region").
Proof.
  apply (territory_names_already_clean plain_db (py "Sample Region")).
  left. exists (DataFrame (sample_sheet fo_row_ru marker_ru)).
  eexists. vm_compute. reflexivity.
Defined.
